(** * BC-PFS: blockchain-based proportional fair scheduling

    A shallow embedding of the Solidity contracts of the repository
    (StatusReportingContract, SchedulingContract, SettlementContract,
    RegistrationContract) and the properties of one scheduling round.

    Conventions of the embedding:
    - [uint] (uint256) is a [Z]; Solidity 0.8 arithmetic is checked, so
      every [+], [-], [*], [/], [%] of the source is one of the checked
      operations below and an overflow is a [Panic] that reverts the call;
    - an [address] is a [Z], [address(0)] is [0];
    - a [mapping] is a [gmap] read through [rd]/[rdb], which return the
      Solidity default ([0], [false]) for a key never written; a nested
      mapping [m[a][b]] is keyed by the pair [(a, b)];
    - a transaction that reverts leaves the state as it was ([commit]). *)

From Stdlib Require Import ZArith List Lia Strings.Byte.
From Stdlib Require QArith Qround.
From stdpp Require Import base gmap list strings.

Local Open Scope Z_scope.

(** ** Solidity values and checked arithmetic *)

Abbreviation address := Z (only parsing).
Abbreviation uint := Z (only parsing).

Definition MAX_UINT : Z := 2 ^ 256 - 1.

Inductive Error : Type :=
| Revert (msg : string)
| Panic.

Inductive Result (A : Type) : Type :=
| Ok (a : A)
| Err (e : Error).
Arguments Ok {A} a.
Arguments Err {A} e.

Definition bind {A B} (m : Result A) (f : A -> Result B) : Result B :=
  match m with
  | Ok a => f a
  | Err e => Err e
  end.

Notation "x <- m ;; k" := (bind m (fun x => k))
  (at level 100, m at next level, right associativity).

Definition require (c : bool) (msg : string) : Result unit :=
  if c then Ok tt else Err (Revert msg).

Definition add (a b : uint) : Result uint :=
  if a + b <=? MAX_UINT then Ok (a + b) else Err Panic.

Definition sub (a b : uint) : Result uint :=
  if b <=? a then Ok (a - b) else Err Panic.

Definition mul (a b : uint) : Result uint :=
  if a * b <=? MAX_UINT then Ok (a * b) else Err Panic.

Definition div (a b : uint) : Result uint :=
  if b =? 0 then Err Panic else Ok (a / b).

Definition rem (a b : uint) : Result uint :=
  if b =? 0 then Err Panic else Ok (a mod b).

(** A [for] loop over a memory array, threading the state it mutates. *)
Fixpoint foldlM {A B} (f : A -> B -> Result A) (a : A) (l : list B) : Result A :=
  match l with
  | [] => Ok a
  | x :: l' => a' <- f a x ;; foldlM f a' l'
  end.

(** Reading a mapping. *)
Definition rd {K} `{Countable K} (m : gmap K Z) (k : K) : Z :=
  default 0 (m !! k).

Definition rdb {K} `{Countable K} (m : gmap K bool) (k : K) : bool :=
  default false (m !! k).

(** Events of the four contracts. *)
Inductive Event : Type :=
| ReportSubmitted (user operator : address) (timestamp rate : uint)
| Scheduled (operators selectedUsers : list address)
| PaymentProcessed (user operator : address) (cost : uint)
| ServiceNotified (user operator : address) (duration bandwidth : uint)
| RegistrationSuccess (user : address) (id : uint) (isOperator : bool).

(** Transaction atomicity: the state after a call is the new state when
    the call returns and the old state when it reverts. *)
Definition commit {S} (s : S) (r : Result (S * list Event)) : S :=
  match r with
  | Ok (s', _) => s'
  | Err _ => s
  end.

Definition emitted {S} (r : Result (S * list Event)) : list Event :=
  match r with
  | Ok (_, ev) => ev
  | Err _ => []
  end.

(** ** StatusReportingContract *)

Module StatusReporting.

Record State : Type := {
  operatorUserRates : gmap (address * address) (list uint);
  latestOperatorUserRate : gmap (address * address) uint
}.

Definition init : State :=
  {| operatorUserRates := ∅; latestOperatorUserRate := ∅ |}.

Definition uint8 (b : byte) : uint := Z.of_N (Byte.to_N b).

(** [csi[i]] of a [bytes memory]: out of range is a panic. *)
Definition index (csi : list byte) (i : nat) : Result uint :=
  match csi !! i with
  | Some b => Ok (uint8 b)
  | None => Err Panic
  end.

Definition validCSI (csi : list byte) : bool :=
  0 <? Z.of_nat (length csi).

Definition rateEstimation (csi : list byte) : Result uint :=
  _ <- require (8 <=? Z.of_nat (length csi)) "Invalid CSI data" ;;
  snrScaled <- foldlM (fun snrScaled i =>
                         x <- mul snrScaled 256 ;;
                         b <- index csi i ;;
                         add x b) 0 (seq 0 8) ;;
  let snrScaled := if snrScaled =? 0 then 1000000 else snrScaled in
  let bandwidth := 1000 in
  let log2 := 693 in
  denom <- mul log2 1000 ;;
  numer <- mul bandwidth snrScaled ;;
  half <- div denom 2 ;;
  s <- add numer half ;;
  div s denom.

Definition history (s : State) (user operator : address) : list uint :=
  default [] (operatorUserRates s !! (user, operator)).

Definition submitReport (s : State) (user operator : address)
    (csi : list byte) (timestamp : uint) : Result (State * list Event) :=
  _ <- require (validCSI csi) "Invalid CSI data" ;;
  rate <- rateEstimation csi ;;
  let s' :=
    {| operatorUserRates :=
         <[(user, operator) := history s user operator ++ [rate]]>
           (operatorUserRates s);
       latestOperatorUserRate :=
         <[(user, operator) := rate]> (latestOperatorUserRate s) |} in
  Ok (s', [ReportSubmitted user operator timestamp rate]).

Definition getLatestRate (s : State) (user operator : address) : uint :=
  rd (latestOperatorUserRate s) (user, operator).

(** The value the specification gives to the first eight bytes: an
    unsigned big-endian number. *)
Fixpoint bigEndian (l : list byte) : Z :=
  match l with
  | [] => 0
  | b :: t => uint8 b * 256 ^ Z.of_nat (length t) + bigEndian t
  end.

Definition snrOf (csi : list byte) : Z := bigEndian (take 8 csi).

Definition clampSnr (snr : Z) : Z := if snr =? 0 then 1000000 else snr.

(** A stream of submissions, each its own transaction. *)
Record Submission : Type := {
  sub_user : address;
  sub_operator : address;
  sub_csi : list byte;
  sub_time : uint
}.

Definition apply (s : State) (x : Submission) : State :=
  commit s (submitReport s (sub_user x) (sub_operator x) (sub_csi x) (sub_time x)).

Definition applyAll (s : State) (l : list Submission) : State :=
  fold_left apply l s.

(** The rates of the successful submissions of [l] for one pair, oldest
    first. *)
Fixpoint ratesFor (user operator : address) (l : list Submission) : list uint :=
  match l with
  | [] => []
  | x :: l' =>
      match rateEstimation (sub_csi x) with
      | Ok r =>
          if decide (sub_user x = user ∧ sub_operator x = operator)
          then r :: ratesFor user operator l'
          else ratesFor user operator l'
      | Err _ => ratesFor user operator l'
      end
  end.

End StatusReporting.

(** ** RegistrationContract *)

Module Registration.

Record Info : Type := { id : uint; isOperator : bool }.

Record State : Type := {
  nextOpId : uint;
  nextUserId : uint;
  registry : gmap address Info;
  allUsers : list address;
  allOperators : list address
}.

Definition init : State :=
  {| nextOpId := 1; nextUserId := 1; registry := ∅;
     allUsers := []; allOperators := [] |}.

Definition getUserInfo (s : State) (a : address) : Info :=
  default {| id := 0; isOperator := false |} (registry s !! a).

Definition validProof (proof : list byte) (isOp : bool) : bool :=
  if isOp then 10 <=? Z.of_nat (length proof)
  else 5 <=? Z.of_nat (length proof).

Definition register (s : State) (user : address) (proof : list byte)
    (isOp : bool) : Result (State * list Event) :=
  _ <- require (validProof proof isOp) "Invalid credentials" ;;
  _ <- require (id (getUserInfo s user) =? 0) "User already registered" ;;
  if isOp then
    next <- add (nextOpId s) 1 ;;
    Ok ({| nextOpId := next; nextUserId := nextUserId s;
           registry := <[user := {| id := nextOpId s; isOperator := true |}]> (registry s);
           allUsers := allUsers s;
           allOperators := allOperators s ++ [user] |},
        [RegistrationSuccess user (nextOpId s) isOp])
  else
    next <- add (nextUserId s) 1 ;;
    Ok ({| nextOpId := nextOpId s; nextUserId := next;
           registry := <[user := {| id := nextUserId s; isOperator := false |}]> (registry s);
           allUsers := allUsers s ++ [user];
           allOperators := allOperators s |},
        [RegistrationSuccess user (nextUserId s) isOp]).

Definition isRegistered (s : State) (user : address) : bool :=
  negb (id (getUserInfo s user) =? 0).

Definition getAllUsers (s : State) : list address := allUsers s.
Definition getAllOperators (s : State) : list address := allOperators s.

End Registration.

(** ** SchedulingContract *)

Module Scheduling.

Record State : Type := {
  selectedUser : gmap address address;
  throughput : gmap address uint;
  throughputRemainder : gmap address uint;
  schedulingMatrix : gmap (address * address) bool;
  allocatedRate : gmap (address * address) uint;
  serviceDuration : gmap (address * address) uint;
  statusReportingContract : address;
  registrationContract : address
}.

Definition alpha : uint := 10000.
Definition PRECISION : uint := 100000000.

Definition init : State :=
  {| selectedUser := ∅; throughput := ∅; throughputRemainder := ∅;
     schedulingMatrix := ∅; allocatedRate := ∅; serviceDuration := ∅;
     statusReportingContract := 0; registrationContract := 0 |}.

(** Storage writes. *)
Definition set_selectedUser (op u : address) (s : State) : State :=
  {| selectedUser := <[op := u]> (selectedUser s);
     throughput := throughput s;
     throughputRemainder := throughputRemainder s;
     schedulingMatrix := schedulingMatrix s;
     allocatedRate := allocatedRate s;
     serviceDuration := serviceDuration s;
     statusReportingContract := statusReportingContract s;
     registrationContract := registrationContract s |}.

Definition set_throughput (u : address) (v r : uint) (s : State) : State :=
  {| selectedUser := selectedUser s;
     throughput := <[u := v]> (throughput s);
     throughputRemainder := <[u := r]> (throughputRemainder s);
     schedulingMatrix := schedulingMatrix s;
     allocatedRate := allocatedRate s;
     serviceDuration := serviceDuration s;
     statusReportingContract := statusReportingContract s;
     registrationContract := registrationContract s |}.

Definition set_schedule (u op : address) (b : bool) (rate : uint) (s : State) : State :=
  {| selectedUser := selectedUser s;
     throughput := throughput s;
     throughputRemainder := throughputRemainder s;
     schedulingMatrix := <[(u, op) := b]> (schedulingMatrix s);
     allocatedRate := <[(u, op) := rate]> (allocatedRate s);
     serviceDuration := serviceDuration s;
     statusReportingContract := statusReportingContract s;
     registrationContract := registrationContract s |}.

Definition set_serviceDuration (u op : address) (d : uint) (s : State) : State :=
  {| selectedUser := selectedUser s;
     throughput := throughput s;
     throughputRemainder := throughputRemainder s;
     schedulingMatrix := schedulingMatrix s;
     allocatedRate := allocatedRate s;
     serviceDuration := <[(u, op) := d]> (serviceDuration s);
     statusReportingContract := statusReportingContract s;
     registrationContract := registrationContract s |}.

Definition setStatusReportingContract (a : address) (s : State) : State :=
  {| selectedUser := selectedUser s;
     throughput := throughput s;
     throughputRemainder := throughputRemainder s;
     schedulingMatrix := schedulingMatrix s;
     allocatedRate := allocatedRate s;
     serviceDuration := serviceDuration s;
     statusReportingContract := a;
     registrationContract := registrationContract s |}.

Definition setRegistrationContract (a : address) (s : State) : State :=
  {| selectedUser := selectedUser s;
     throughput := throughput s;
     throughputRemainder := throughputRemainder s;
     schedulingMatrix := schedulingMatrix s;
     allocatedRate := allocatedRate s;
     serviceDuration := serviceDuration s;
     statusReportingContract := statusReportingContract s;
     registrationContract := a |}.

Definition getSchedulingMatrix (s : State) (user operator : address) : bool :=
  rdb (schedulingMatrix s) (user, operator).

Definition getServiceDuration (s : State) (user operator : address) : uint :=
  rd (serviceDuration s) (user, operator).

Definition getSelectedUsers (s : State) (operatorList : list address) : list address :=
  map (fun op => rd (selectedUser s) op) operatorList.

Section Round.

(** The collaborators of one call: the status reporting contract behind
    [statusReportingContract], the registration contract behind
    [registrationContract], the block's timestamp, and
    [uint(keccak256(abi.encodePacked(block.timestamp, op)))]. *)
Variable status : StatusReporting.State.
Variable reg : Registration.State.
Variable timestamp : uint.
Variable keccak256 : uint -> address -> uint.

Definition getLatestRate (s : State) (user operator : address) : Result uint :=
  _ <- require (negb (statusReportingContract s =? 0)) "StatusReportingContract not set" ;;
  Ok (StatusReporting.getLatestRate status user operator).

(** Body of the inner loop of the selection: the storage, and the locals
    [bestLatestRate] and [maxPriority]. *)
Definition scanUser (op : address) (acc : State * uint * uint) (u : address)
    : Result (State * uint * uint) :=
  let '(s, bestLatestRate, maxPriority) := acc in
  latestRate <- getLatestRate s u op ;;
  priority <-
    (if 0 <? rd (throughput s) u then
       x <- mul latestRate 1000000000 ;;
       div x (rd (throughput s) u)
     else
       mul latestRate 100000000) ;;
  if maxPriority <? priority then
    Ok (set_selectedUser op u s, latestRate, priority)
  else
    Ok (s, bestLatestRate, maxPriority).

(** Body of the loop over the operators. *)
Definition selectFor (currentUsers : list address) (s : State) (op : address)
    : Result State :=
  let prev := rd (selectedUser s) op in
  let s := if negb (prev =? 0) then set_schedule prev op false 0 s else s in
  let s := set_selectedUser op 0 s in
  acc <- foldlM (scanUser op) (s, 0, 0) currentUsers ;;
  let '(s, bestLatestRate, _) := acc in
  let sel := rd (selectedUser s) op in
  if negb (sel =? 0) then
    d <- rem (keccak256 timestamp op) 16 ;;
    duration <- add 35 d ;;
    Ok (set_serviceDuration sel op duration (set_schedule sel op true bestLatestRate s))
  else
    Ok s.

(** The sum of the inner loop of the throughput update. *)
Definition totalAllocatedOf (currentOperators : list address) (s : State)
    (u : address) : Result uint :=
  foldlM (fun totalAllocated op =>
            if rdb (schedulingMatrix s) (u, op)
            then add totalAllocated (rd (allocatedRate s) (u, op))
            else Ok totalAllocated) 0 currentOperators.

(** The new [(throughput, throughputRemainder)] of a user. *)
Definition nextThroughput (oldThroughput remainder totalAllocated : uint)
    : Result (uint * uint) :=
  a <- sub alpha 1 ;;
  b <- mul a oldThroughput ;;
  c <- mul totalAllocated 100000000 ;;
  d <- add b c ;;
  numerator <- add d remainder ;;
  newThroughput <- div numerator alpha ;;
  newRemainder <- rem numerator alpha ;;
  Ok (newThroughput, newRemainder).

(** Body of the loop of the throughput update. *)
Definition updateThroughput (currentOperators : list address) (s : State)
    (u : address) : Result State :=
  totalAllocated <- totalAllocatedOf currentOperators s u ;;
  let oldThroughput := rd (throughput s) u in
  let remainder := rd (throughputRemainder s) u in
  next <- nextThroughput oldThroughput remainder totalAllocated ;;
  Ok (set_throughput u (fst next) (snd next) s).

Definition updateScheduling (s : State) : Result (State * list Event) :=
  let currentUsers := Registration.getAllUsers reg in
  let currentOperators := Registration.getAllOperators reg in
  s <- foldlM (selectFor currentUsers) s currentOperators ;;
  s <- foldlM (updateThroughput currentOperators) s currentUsers ;;
  Ok (s, [Scheduled currentOperators (getSelectedUsers s currentOperators)]).

End Round.

End Scheduling.

(** ** SettlementContract *)

Module Settlement.

Record State : Type := {
  schedulingContract : address;
  registrationContract : address;
  operatorRates : gmap address uint
}.

Definition init : State :=
  {| schedulingContract := 0; registrationContract := 0; operatorRates := ∅ |}.

Definition setSchedulingContract (a : address) (s : State) : State :=
  {| schedulingContract := a;
     registrationContract := registrationContract s;
     operatorRates := operatorRates s |}.

Definition setRegistrationContract (a : address) (s : State) : State :=
  {| schedulingContract := schedulingContract s;
     registrationContract := a;
     operatorRates := operatorRates s |}.

Definition setOperatorRate (operator : address) (rate : uint) (s : State) : State :=
  {| schedulingContract := schedulingContract s;
     registrationContract := registrationContract s;
     operatorRates := <[operator := rate]> (operatorRates s) |}.

Section Round.

(** The collaborators of one call: the scheduling contract behind
    [schedulingContract] and the registration contract behind
    [registrationContract]. *)
Variable sched : Scheduling.State.
Variable reg : Registration.State.

Definition getSchedulingMatrix (s : State) (user operator : address) : Result bool :=
  _ <- require (negb (schedulingContract s =? 0)) "SchedulingContract not set" ;;
  Ok (Scheduling.getSchedulingMatrix sched user operator).

Definition getServiceParameters (s : State) (user operator : address) : uint * uint :=
  let duration :=
    if negb (schedulingContract s =? 0)
    then Scheduling.getServiceDuration sched user operator
    else 0 in
  let duration := if duration =? 0 then 50 else duration in
  let bandwidth := 1000 in
  (duration, bandwidth).

Definition calculateCost (s : State) (operator : address) (duration bandwidth : uint)
    : Result uint :=
  let rate := rd (operatorRates s) operator in
  let rate := if rate =? 0 then 87 else rate in
  x <- mul rate duration ;;
  mul x bandwidth.

(** The payment itself is left empty by the source. *)
Definition processPayment (user operator : address) (cost : uint) : unit := tt.

Definition settleService (s : State) (user operator : address)
    (duration bandwidth : uint) : Result (list Event) :=
  cost <- calculateCost s operator duration bandwidth ;;
  let _ := processPayment user operator cost in
  Ok [PaymentProcessed user operator cost].

Definition notify (user operator : address) (duration bandwidth : uint) : list Event :=
  [ServiceNotified user operator duration bandwidth].

(** Body of the inner loop: the events of one pair, appended to the log. *)
Definition settlePair (s : State) (u : address) (log : list Event) (op : address)
    : Result (list Event) :=
  scheduled <- getSchedulingMatrix s u op ;;
  if (scheduled : bool) then
    let '(duration, bandwidth) := getServiceParameters s u op in
    let ev1 := notify u op duration bandwidth in
    ev2 <- settleService s u op duration bandwidth ;;
    Ok (log ++ ev1 ++ ev2)
  else
    Ok log.

Definition processScheduledTransactions (s : State) : Result (State * list Event) :=
  let currentUsers := Registration.getAllUsers reg in
  let currentOperators := Registration.getAllOperators reg in
  log <- foldlM (fun log u => foldlM (settlePair s u) log currentOperators)
           [] currentUsers ;;
  Ok (s, log).

End Round.

End Settlement.

(** ** The throughput average of the specification *)

Module Ewma.

Import QArith Qround.

(** The exponentially weighted moving average over the rationals, with
    weight [1/ALPHA] for the sample [x] of every round, after [k] rounds
    from [0]. *)
Fixpoint exact (x : Z) (k : nat) : Q :=
  match k with
  | O => 0%Q
  | S k' =>
      ((1 - (1 # 10000)) * exact x k' + (1 # 10000) * inject_Z x)%Q
  end.

(** Scaled to the fixed-point precision and truncated once. *)
Definition floored (x : Z) (k : nat) : Z :=
  Qfloor (exact x k * inject_Z 100000000)%Q.

End Ewma.

(** The contract's pair [(throughput, throughputRemainder)] after [k]
    rounds in which the user was allocated [x]. *)
Fixpoint throughputAfter (x : uint) (k : nat) : Result (uint * uint) :=
  match k with
  | O => Ok (0, 0)
  | S k' =>
      st <- throughputAfter x k' ;;
      Scheduling.nextThroughput (fst st) (snd st) x
  end.

(** The priority the selection loop computes for a candidate, as a plain
    number. *)
Definition priorityOf (latestRate tp : Z) : Z :=
  if 0 <? tp then latestRate * 1000000000 / tp else latestRate * 100000000.

(** ** The selection and the invariant, as plain functions of the state *)

Section Selection.

Variable status : StatusReporting.State.
Variable tp : gmap address uint.
Variable op : address.

Definition rateAt (u : address) : Z := StatusReporting.getLatestRate status u op.

Definition priorityAt (u : address) : Z := priorityOf (rateAt u) (rd tp u).

(** The scan of the users for one operator: the best candidate so far,
    its latest rate and its priority. *)
Fixpoint scan (l : list address) (best : address * Z * Z) : address * Z * Z :=
  match l with
  | [] => best
  | u :: l' =>
      scan l' (if snd best <? priorityAt u then (u, rateAt u, priorityAt u) else best)
  end.

Definition chosen (users : list address) : address * Z * Z := scan users (0, 0, 0).

End Selection.

(** The fields no selection step writes. *)
Definition sameAccounts (s s' : Scheduling.State) : Prop :=
  Scheduling.throughput s' = Scheduling.throughput s
  /\ Scheduling.throughputRemainder s' = Scheduling.throughputRemainder s
  /\ Scheduling.statusReportingContract s' = Scheduling.statusReportingContract s
  /\ Scheduling.registrationContract s' = Scheduling.registrationContract s.

(** What the contract records about one operator. *)
Definition sameOperator (op : address) (s s' : Scheduling.State) : Prop :=
  rd (Scheduling.selectedUser s') op = rd (Scheduling.selectedUser s) op
  /\ forall u,
       rdb (Scheduling.schedulingMatrix s') (u, op) = rdb (Scheduling.schedulingMatrix s) (u, op)
       /\ rd (Scheduling.allocatedRate s') (u, op) = rd (Scheduling.allocatedRate s) (u, op)
       /\ rd (Scheduling.serviceDuration s') (u, op) = rd (Scheduling.serviceDuration s) (u, op).

(** The selection state of the contract: the scheduling matrix marks, for
    an operator, its recorded selected user and nobody else. *)
Definition oneSelection (s : Scheduling.State) : Prop :=
  forall u op,
    rdb (Scheduling.schedulingMatrix s) (u, op) = true
    <-> rd (Scheduling.selectedUser s) op = u /\ u <> 0.

(** The allocation of a user in a round: the allocated rates of the
    operators of the list that mark the user selected. *)
Definition sumAllocated (operators : list address) (s : Scheduling.State) (u : address) : Z :=
  foldr (fun op acc =>
           (if rdb (Scheduling.schedulingMatrix s) (u, op)
            then rd (Scheduling.allocatedRate s) (u, op) else 0) + acc)
        0 operators.

(** The fields the throughput update does not write. *)
Definition sameSelection (s s' : Scheduling.State) : Prop :=
  Scheduling.selectedUser s' = Scheduling.selectedUser s
  /\ Scheduling.schedulingMatrix s' = Scheduling.schedulingMatrix s
  /\ Scheduling.allocatedRate s' = Scheduling.allocatedRate s
  /\ Scheduling.serviceDuration s' = Scheduling.serviceDuration s
  /\ Scheduling.statusReportingContract s' = Scheduling.statusReportingContract s
  /\ Scheduling.registrationContract s' = Scheduling.registrationContract s.

(** The numerator of the throughput update. *)
Definition numeratorOf (oldThroughput remainder totalAllocated : Z) : Z :=
  (Scheduling.alpha - 1) * oldThroughput + totalAllocated * Scheduling.PRECISION
  + remainder.

(** The exact average after [k] rounds is [ewmaNum x k / 10000 ^ k]. *)
Fixpoint ewmaNum (x : Z) (k : nat) : Z :=
  match k with
  | O => 0
  | S k' => 9999 * ewmaNum x k' + x * 10000 ^ Z.of_nat k'
  end.

(** ** The settlement of a pair, as a plain function *)

(** The events of the settlement that are about one pair. *)
Definition aboutPair (u op : address) (e : Event) : bool :=
  match e with
  | ServiceNotified u' op' _ _ => (u' =? u) && (op' =? op)
  | PaymentProcessed u' op' _ => (u' =? u) && (op' =? op)
  | _ => false
  end.

Definition durationOf (sched : Scheduling.State) (u op : address) : Z :=
  if Scheduling.getServiceDuration sched u op =? 0 then 50
  else Scheduling.getServiceDuration sched u op.

Definition billingRate (s : Settlement.State) (op : address) : Z :=
  if rd (Settlement.operatorRates s) op =? 0 then 87
  else rd (Settlement.operatorRates s) op.

Definition pairEvents (sched : Scheduling.State) (s : Settlement.State)
    (u op : address) : list Event :=
  if Scheduling.getSchedulingMatrix sched u op then
    [ServiceNotified u op (durationOf sched u op) 1000;
     PaymentProcessed u op (billingRate s op * durationOf sched u op * 1000)]
  else [].

(** ** A small deployment, to run the contracts on

    Users 11, 12, 13 and operators 21, 22, registered in this order.
    The reports give the pairs (11, 21) and (12, 21) the rate 1443,
    (12, 22) the rate 1443 and (13, 22) the rate 2500. *)

Module Demo.

Definition proof5 : list byte := replicate 5 x00.
Definition proof10 : list byte := replicate 10 x00.

Definition join (r : Registration.State) (a : address) (isOp : bool) : Registration.State :=
  commit r (Registration.register r a (if isOp then proof10 else proof5) isOp).

Definition regUser : Registration.State := join Registration.init 11 false.
Definition regPair : Registration.State := join regUser 21 true.
Definition regAll : Registration.State :=
  join (join (join (join (join Registration.init 11 false) 12 false) 13 false) 21 true)
    22 true.

(** snrScaled = 0, rate 1443. *)
Definition csi1443 : list byte := replicate 13 x00.
(** snrScaled = 1732500 = 0x1a6f94, rate 2500. *)
Definition csi2500 : list byte := [x00; x00; x00; x00; x00; x1a; x6f; x94].

Definition reportsPair : StatusReporting.State :=
  StatusReporting.applyAll StatusReporting.init
    [ {| StatusReporting.sub_user := 11; StatusReporting.sub_operator := 21;
         StatusReporting.sub_csi := csi2500; StatusReporting.sub_time := 1 |} ].

Definition reportsAll : StatusReporting.State :=
  StatusReporting.applyAll StatusReporting.init
    [ {| StatusReporting.sub_user := 11; StatusReporting.sub_operator := 21;
         StatusReporting.sub_csi := csi1443; StatusReporting.sub_time := 1 |};
      {| StatusReporting.sub_user := 12; StatusReporting.sub_operator := 21;
         StatusReporting.sub_csi := csi1443; StatusReporting.sub_time := 1 |};
      {| StatusReporting.sub_user := 12; StatusReporting.sub_operator := 22;
         StatusReporting.sub_csi := csi1443; StatusReporting.sub_time := 1 |};
      {| StatusReporting.sub_user := 13; StatusReporting.sub_operator := 22;
         StatusReporting.sub_csi := csi2500; StatusReporting.sub_time := 1 |} ].

(** A stand-in for the hash of (timestamp, operator). *)
Definition hash (timestamp : uint) (op : address) : uint := timestamp + op.

(** The scheduling contract after deployment and wiring. *)
Definition deployed : Scheduling.State :=
  Scheduling.setRegistrationContract 901
    (Scheduling.setStatusReportingContract 900 Scheduling.init).

Definition round (status : StatusReporting.State) (reg : Registration.State)
    (s : Scheduling.State) : Scheduling.State :=
  commit s (Scheduling.updateScheduling status reg 1 hash s).

Definition settlement : Settlement.State :=
  Settlement.setRegistrationContract 901
    (Settlement.setSchedulingContract 902 Settlement.init).

(** The states the properties are run on: one round of the full
    deployment; one round of the single pair (11, 21). *)
Definition after : Scheduling.State := round reportsAll regAll deployed.
Definition afterPair : Scheduling.State := round reportsPair regPair deployed.

End Demo.

(** The registry keeps its two lists duplicate-free: a listed address
    has a nonzero id, and ids are handed out from 1. *)
Definition registryOk (r : Registration.State) : Prop :=
  NoDup (Registration.allUsers r)
  /\ NoDup (Registration.allOperators r)
  /\ (forall a, a ∈ Registration.allUsers r \/ a ∈ Registration.allOperators r ->
                Registration.id (Registration.getUserInfo r a) <> 0)
  /\ 0 < Registration.nextOpId r
  /\ 0 < Registration.nextUserId r.

(** ** The states the arithmetic is safe on

    Latest rates and allocated rates below 2^64 (every rate a report
    produces is), throughput values below 2^160 and remainders below
    [alpha]. *)
Definition ratesBounded (status : StatusReporting.State) : Prop :=
  forall u op, 0 <= StatusReporting.getLatestRate status u op <= 2 ^ 64.

Definition bounded (s : Scheduling.State) : Prop :=
  Scheduling.statusReportingContract s <> 0
  /\ (forall u op, 0 <= rd (Scheduling.allocatedRate s) (u, op) <= 2 ^ 64)
  /\ (forall u, 0 <= rd (Scheduling.throughput s) u <= 2 ^ 160)
  /\ (forall u, 0 <= rd (Scheduling.throughputRemainder s) u < 10000).

(** ** Streams of registrations *)

Record Registering : Type := {
  reg_user : address;
  reg_proof : list byte;
  reg_isOperator : bool
}.

Definition registerOne (r : Registration.State) (c : Registering) : Registration.State :=
  commit r (Registration.register r (reg_user c) (reg_proof c) (reg_isOperator c)).

(** The registry after a stream of calls of [register], each its own
    transaction. *)
Definition registerAll (r : Registration.State) (l : list Registering) : Registration.State :=
  fold_left registerOne l r.

(** Ids are the 1-based positions in the two lists, and the registry
    knows nobody else. *)
Definition registryIds (r : Registration.State) : Prop :=
  Registration.nextUserId r = Z.of_nat (length (Registration.allUsers r)) + 1
  /\ Registration.nextOpId r = Z.of_nat (length (Registration.allOperators r)) + 1
  /\ (forall (i : nat) a, Registration.allUsers r !! i = Some a ->
        Registration.getUserInfo r a
        = {| Registration.id := Z.of_nat i + 1; Registration.isOperator := false |})
  /\ (forall (i : nat) a, Registration.allOperators r !! i = Some a ->
        Registration.getUserInfo r a
        = {| Registration.id := Z.of_nat i + 1; Registration.isOperator := true |})
  /\ (forall a, Registration.id (Registration.getUserInfo r a) <> 0 ->
        a ∈ Registration.allUsers r \/ a ∈ Registration.allOperators r).

(** The pair a submission is for. *)
Definition pairOf (x : StatusReporting.Submission) : address * address :=
  (StatusReporting.sub_user x, StatusReporting.sub_operator x).

(** ** The driver's channel reports (bcpfs-runner.js)

    [generateCSIData] rounds a sampled SNR to an integer [snrScaled] and
    writes it into a [Uint8Array(8)], last byte first, with the 32-bit
    operators [&] and [>>>] of JavaScript. The sampling is floating
    point; the byte loop is modelled, from the rounded integer on. *)

Module Js.

(** ToInt32 and ToUint32 of an integral number. *)
Definition toUint32 (n : Z) : Z := n mod 2 ^ 32.

Definition toInt32 (n : Z) : Z :=
  let m := n mod 2 ^ 32 in if 2 ^ 31 <=? m then m - 2 ^ 32 else m.

(** [a & b] and [a >>> b]. *)
Definition bitand (a b : Z) : Z := Z.land (toInt32 a) (toInt32 b).

Definition ushr (a b : Z) : Z := Z.shiftr (toUint32 a) (toUint32 b mod 32).

(** A store into a [Uint8Array] keeps the value modulo 256. *)
Definition toUint8 (n : Z) : byte :=
  match Byte.of_N (Z.to_N (n mod 256)) with
  | Some b => b
  | None => x00
  end.

(** Body of the loop [for (let i = 7; i >= 0; i--)]. *)
Definition storeByte (st : list byte * Z) (i : nat) : list byte * Z :=
  let '(bytes, snrScaled) := st in
  (<[i := toUint8 (bitand snrScaled 255)]> bytes, ushr snrScaled 8).

Definition csiBytes (snrScaled : Z) : list byte :=
  fst (fold_left storeByte [7; 6; 5; 4; 3; 2; 1; 0]%nat (replicate 8 x00, snrScaled)).

End Js.

(** Every marked pair has a recorded service duration from 35 to 50. *)
Definition durationsOk (s : Scheduling.State) : Prop :=
  forall u op,
    Scheduling.getSchedulingMatrix s u op = true ->
    35 <= Scheduling.getServiceDuration s u op <= 50.

(** ** A user whose average has outrun its rate

    Fifty rounds of the pair (11, 21) at rate 2500, then a report of the
    same pair with snrScaled = 693 = 0x02b5, rate 1. *)

Module Starved.

Definition csi1 : list byte := [x00; x00; x00; x00; x00; x00; x02; xb5].

Definition after50 : Scheduling.State :=
  Nat.iter 50 (Demo.round Demo.reportsPair Demo.regPair) Demo.deployed.

Definition reportsLow : StatusReporting.State :=
  StatusReporting.applyAll Demo.reportsPair
    [ {| StatusReporting.sub_user := 11; StatusReporting.sub_operator := 21;
         StatusReporting.sub_csi := csi1; StatusReporting.sub_time := 51 |} ].

Definition next : Scheduling.State :=
  commit after50 (Scheduling.updateScheduling reportsLow Demo.regPair 51 Demo.hash after50).

End Starved.

(** The events of the settlement that are about one operator. *)
Definition aboutOperator (op : address) (e : Event) : bool :=
  match e with
  | ServiceNotified _ op' _ _ => op' =? op
  | PaymentProcessed _ op' _ => op' =? op
  | _ => false
  end.

(** * Properties *)

(** ** The error monad and the checked operations *)

Lemma bind_Ok {A B} (m : Result A) (f : A -> Result B) (b : B) :
  bind m f = Ok b -> exists a, m = Ok a /\ f a = Ok b.
Proof. destruct m as [a|e]; simpl; [eauto | discriminate]. Qed.

Lemma require_Ok (c : bool) (msg : string) (u : unit) :
  require c msg = Ok u -> c = true.
Proof. destruct c; [reflexivity | discriminate]. Qed.

Lemma add_Ok (a b c : Z) : add a b = Ok c -> c = a + b /\ a + b <= MAX_UINT.
Proof.
  unfold add. destruct (Z.leb_spec (a + b) MAX_UINT); [|discriminate].
  intros [= <-]. auto.
Qed.

Lemma mul_Ok (a b c : Z) : mul a b = Ok c -> c = a * b /\ a * b <= MAX_UINT.
Proof.
  unfold mul. destruct (Z.leb_spec (a * b) MAX_UINT); [|discriminate].
  intros [= <-]. auto.
Qed.

Lemma div_Ok (a b c : Z) : div a b = Ok c -> c = a / b /\ b <> 0.
Proof.
  unfold div. destruct (Z.eqb_spec b 0); [discriminate|].
  intros [= <-]. auto.
Qed.

Lemma rem_Ok (a b c : Z) : rem a b = Ok c -> c = a mod b /\ b <> 0.
Proof.
  unfold rem. destruct (Z.eqb_spec b 0); [discriminate|].
  intros [= <-]. auto.
Qed.

Lemma add_fits (a b : Z) : a + b <= MAX_UINT -> add a b = Ok (a + b).
Proof. intros H. unfold add. destruct (Z.leb_spec (a + b) MAX_UINT); [reflexivity | lia]. Qed.

Lemma mul_fits (a b : Z) : a * b <= MAX_UINT -> mul a b = Ok (a * b).
Proof. intros H. unfold mul. destruct (Z.leb_spec (a * b) MAX_UINT); [reflexivity | lia]. Qed.

Lemma div_fits (a b : Z) : b <> 0 -> div a b = Ok (a / b).
Proof. intros H. unfold div. destruct (Z.eqb_spec b 0); [contradiction | reflexivity]. Qed.

Lemma rem_fits (a b : Z) : b <> 0 -> rem a b = Ok (a mod b).
Proof. intros H. unfold rem. destruct (Z.eqb_spec b 0); [contradiction | reflexivity]. Qed.

(** Splits a hypothesis [x <- m ;; k = Ok b] into its successful steps. *)
Ltac inv_ok :=
  repeat match goal with
  | H : bind _ _ = Ok _ |- _ =>
      let a := fresh "a" in let Ha := fresh "Ha" in
      apply bind_Ok in H; destruct H as (a & Ha & H)
  | H : add _ _ = Ok _ |- _ => apply add_Ok in H; destruct H as [-> H]
  | H : mul _ _ = Ok _ |- _ => apply mul_Ok in H; destruct H as [-> H]
  | H : div _ _ = Ok _ |- _ => apply div_Ok in H; destruct H as [-> H]
  | H : rem _ _ = Ok _ |- _ => apply rem_Ok in H; destruct H as [-> H]
  | H : require _ _ = Ok _ |- _ => apply require_Ok in H
  end.

Lemma foldlM_app {A B} (f : A -> B -> Result A) (a : A) (l1 l2 : list B) :
  foldlM f a (l1 ++ l2) = (a' <- foldlM f a l1 ;; foldlM f a' l2).
Proof.
  revert a. induction l1 as [|x l1 IH]; intros a; simpl; [reflexivity|].
  destruct (f a x); simpl; auto.
Qed.

(** A property kept by every successful iteration is kept by the loop. *)
Lemma foldlM_invariant {A B} (P : A -> Prop) (f : A -> B -> Result A) (l : list B) :
  (forall a x a', x ∈ l -> P a -> f a x = Ok a' -> P a') ->
  forall a a', P a -> foldlM f a l = Ok a' -> P a'.
Proof.
  induction l as [|x l IH]; intros Hf a a' Ha H; simpl in H.
  - injection H as <-. exact Ha.
  - apply bind_Ok in H. destruct H as (a1 & H1 & H2).
    apply (IH (fun a x a' Hx => Hf a x a' (list_elem_of_further _ _ _ Hx)) a1 a');
      [|exact H2].
    apply (Hf a x a1); [left | exact Ha | exact H1].
Qed.

Lemma rd_insert {K} `{Countable K} (m : gmap K Z) (i j : K) (v : Z) :
  rd (<[i := v]> m) j = if decide (i = j) then v else rd m j.
Proof. unfold rd. rewrite lookup_insert. destruct (decide (i = j)); reflexivity. Qed.

Lemma rdb_insert {K} `{Countable K} (m : gmap K bool) (i j : K) (v : bool) :
  rdb (<[i := v]> m) j = if decide (i = j) then v else rdb m j.
Proof. unfold rdb. rewrite lookup_insert. destruct (decide (i = j)); reflexivity. Qed.

(** ** StatusReportingContract *)

Section StatusReportingFacts.
Import StatusReporting.

Lemma uint8_range (b : byte) : 0 <= uint8 b <= 255.
Proof. unfold uint8. pose proof (Byte.to_N_bounded b). lia. Qed.

Lemma bigEndian_range (l : list byte) :
  0 <= bigEndian l < 256 ^ Z.of_nat (length l).
Proof.
  induction l as [|b t IH]; simpl bigEndian; simpl length; [simpl; lia|].
  pose proof (uint8_range b).
  rewrite Nat2Z.inj_succ, Z.pow_succ_r by lia.
  nia.
Qed.

(** The byte loop computes the big-endian value, and never overflows
    while the accumulated value leaves room for the remaining bytes. *)
Lemma snr_loop (csi : list byte) (n i : nat) (acc : Z) :
  (i + n <= length csi)%nat ->
  0 <= acc ->
  (acc + 1) * 256 ^ Z.of_nat n <= MAX_UINT + 1 ->
  foldlM (fun snrScaled i =>
            x <- mul snrScaled 256 ;;
            b <- index csi i ;;
            add x b) acc (seq i n)
  = Ok (acc * 256 ^ Z.of_nat n + bigEndian (take n (drop i csi))).
Proof.
  revert i acc. induction n as [|n IH]; intros i acc Hlen Hacc Hfit.
  - simpl. f_equal. lia.
  - rewrite Nat2Z.inj_succ, Z.pow_succ_r in * by lia.
    destruct (lookup_lt_is_Some_2 csi i) as [b Hb]; [lia|].
    pose proof (uint8_range b) as Hr.
    assert (0 < 256 ^ Z.of_nat n) by (apply Z.pow_pos_nonneg; lia).
    cbn [seq foldlM]. rewrite mul_fits by nia. cbn [bind].
    unfold index. rewrite Hb. cbn [bind].
    rewrite add_fits by nia. cbn [bind].
    rewrite IH by (try lia; nia).
    rewrite (drop_S _ _ _ Hb). cbn [take bigEndian].
    rewrite length_take_le by (rewrite length_drop; lia).
    f_equal. ring.
Qed.

Lemma rateEstimation_value (csi : list byte) :
  (8 <= length csi)%nat ->
  rateEstimation csi
  = Ok ((1000 * clampSnr (snrOf csi) + 693000 / 2) / 693000).
Proof.
  intros Hlen. unfold rateEstimation.
  replace (8 <=? Z.of_nat (length csi)) with true by (symmetry; apply Z.leb_le; lia).
  cbn [require bind].
  rewrite snr_loop; [|lia|lia|vm_compute; discriminate].
  cbn [bind]. rewrite drop_0, Z.mul_0_l, Z.add_0_l. fold (snrOf csi).
  fold (clampSnr (snrOf csi)).
  assert (0 <= clampSnr (snrOf csi) < 2 ^ 64) as Hs.
  { pose proof (bigEndian_range (take 8 csi)) as Hr.
    rewrite length_take_le in Hr by lia. change (256 ^ Z.of_nat 8) with (2 ^ 64) in Hr.
    unfold clampSnr, snrOf. destruct (Z.eqb_spec (bigEndian (take 8 csi)) 0); lia. }
  change (mul 693 1000) with (Ok 693000). cbn [bind].
  assert (2 ^ 64 * 1000 + 346500 <= MAX_UINT) as Hm by (vm_compute; discriminate).
  rewrite mul_fits by lia. cbn [bind].
  change (div 693000 2) with (Ok 346500). cbn [bind].
  rewrite add_fits by lia. cbn [bind].
  rewrite div_fits by lia. reflexivity.
Qed.

Lemma rateEstimation_short (csi : list byte) :
  (length csi < 8)%nat ->
  rateEstimation csi = Err (Revert "Invalid CSI data").
Proof.
  intros Hlen. unfold rateEstimation.
  replace (8 <=? Z.of_nat (length csi)) with false by (symmetry; apply Z.leb_gt; lia).
  reflexivity.
Qed.

Lemma rateEstimation_Ok_length (csi : list byte) (r : Z) :
  rateEstimation csi = Ok r -> (8 <= length csi)%nat.
Proof.
  intros H. destruct (le_lt_dec 8 (length csi)) as [|Hlt]; [assumption|].
  rewrite (rateEstimation_short _ Hlt) in H. discriminate.
Qed.

Lemma submitReport_Ok (s : State) (u o : address) (csi : list byte) (ts r : Z) :
  rateEstimation csi = Ok r ->
  submitReport s u o csi ts
  = Ok ({| operatorUserRates :=
             <[(u, o) := history s u o ++ [r]]> (operatorUserRates s);
           latestOperatorUserRate := <[(u, o) := r]> (latestOperatorUserRate s) |},
        [ReportSubmitted u o ts r]).
Proof.
  intros Hr. unfold submitReport, validCSI.
  pose proof (rateEstimation_Ok_length _ _ Hr).
  replace (0 <? Z.of_nat (length csi)) with true by (symmetry; apply Z.ltb_lt; lia).
  cbn [require bind]. rewrite Hr. reflexivity.
Qed.

Lemma submitReport_Err (s : State) (u o : address) (csi : list byte) (ts : Z) (e : Error) :
  rateEstimation csi = Err e ->
  exists e', submitReport s u o csi ts = Err e'.
Proof.
  intros Hr. unfold submitReport. destruct (require _ _); cbn [bind]; [|eauto].
  rewrite Hr. cbn [bind]. eauto.
Qed.

End StatusReportingFacts.

Section StatusReportingClaims.
Import StatusReporting.

(** C3. For every channel report of at least 8 bytes, [rateEstimation]
    returns [(1000 * snrScaled + 693000/2) / 693000] (integer division),
    where [snrScaled] is the unsigned big-endian value of the first 8
    bytes, replaced by 1,000,000 when it is 0; the result is a function of
    the bytes alone, and a report whose first 8 bytes are zero has rate
    1443 whatever follows them. *)
Theorem C3_rateEstimation_formula (csi : list byte) :
  (8 <= length csi)%nat ->
  rateEstimation csi
  = Ok ((1000 * (if snrOf csi =? 0 then 1000000 else snrOf csi) + 693000 / 2)
        / 693000)
  /\ (snrOf csi = 0 -> rateEstimation csi = Ok 1443).
Proof.
  intros Hlen. pose proof (rateEstimation_value csi Hlen) as H.
  unfold clampSnr in H. split; [exact H|].
  intros H0. rewrite H, H0. reflexivity.
Qed.

Lemma C3_witness :
  rateEstimation (replicate 13 x00)
  = Ok ((1000 * (if snrOf (replicate 13 x00) =? 0 then 1000000
                 else snrOf (replicate 13 x00)) + 693000 / 2) / 693000)
  /\ (snrOf (replicate 13 x00) = 0 ->
      rateEstimation (replicate 13 x00) = Ok 1443).
Proof. apply (C3_rateEstimation_formula (replicate 13 x00)). simpl. lia. Defined.

(** One successful submission: the pair's latest rate is the submitted
    rate, its history grows by it, every other pair keeps both. *)
Lemma apply_Ok (s : State) (x : Submission) (r : Z) :
  rateEstimation (sub_csi x) = Ok r ->
  forall u o,
    getLatestRate (apply s x) u o
    = (if decide (sub_user x = u /\ sub_operator x = o) then r
       else getLatestRate s u o)
    /\ history (apply s x) u o
       = (if decide (sub_user x = u /\ sub_operator x = o) then history s u o ++ [r]
          else history s u o).
Proof.
  intros Hr u o. unfold apply. rewrite (submitReport_Ok _ _ _ _ _ _ Hr).
  unfold commit, getLatestRate, history. cbn [latestOperatorUserRate operatorUserRates].
  rewrite rd_insert, lookup_insert.
  destruct (decide (sub_user x = u /\ sub_operator x = o)) as [[<- <-]|Hne].
  - rewrite !decide_True by reflexivity. auto.
  - rewrite !decide_False by (intros [= ? ?]; auto). auto.
Qed.

Lemma apply_Err (s : State) (x : Submission) (e : Error) :
  rateEstimation (sub_csi x) = Err e -> apply s x = s.
Proof.
  intros Hr. unfold apply.
  destruct (submitReport_Err s (sub_user x) (sub_operator x) _ (sub_time x) _ Hr) as [e' ->].
  reflexivity.
Qed.

Lemma last_cons_default {A} (l : list A) (r d : A) :
  List.last (r :: l) d = List.last l r.
Proof.
  revert r d. induction l as [|z l IH]; intros r d; [reflexivity|].
  change (List.last (r :: z :: l) d) with (List.last (z :: l) d).
  rewrite !IH. reflexivity.
Qed.

Lemma applyAll_tracks (l : list Submission) (s : State) (u o : address) :
  getLatestRate (applyAll s l) u o = List.last (ratesFor u o l) (getLatestRate s u o)
  /\ history (applyAll s l) u o = history s u o ++ ratesFor u o l.
Proof.
  revert s. induction l as [|x l IH]; intros s.
  - simpl. rewrite app_nil_r. auto.
  - unfold applyAll in *. cbn [fold_left ratesFor].
    destruct (IH (apply s x)) as [IH1 IH2]. rewrite IH1, IH2. clear IH IH1 IH2.
    destruct (rateEstimation (sub_csi x)) as [r|e] eqn:Hr.
    + destruct (apply_Ok s x r Hr u o) as [-> ->].
      destruct (decide (sub_user x = u /\ sub_operator x = o)).
      * rewrite <- app_assoc, last_cons_default. auto.
      * auto.
    + rewrite (apply_Err s x e Hr). auto.
Qed.

(** C7. Before any submission the latest rate of a pair is 0; after any
    stream of submissions (each its own transaction, failed ones rolled
    back) it is the rate of the pair's most recent successful submission,
    whatever was submitted for other pairs; the pair's history is the list
    of the rates of its successful submissions, in order. *)
Theorem C7_latestRate_is_last_submission (l : list Submission) (u o : address) :
  getLatestRate init u o = 0
  /\ getLatestRate (applyAll init l) u o = List.last (ratesFor u o l) 0
  /\ history (applyAll init l) u o = ratesFor u o l
  /\ (forall csi ts r, rateEstimation csi = Ok r ->
        getLatestRate
          (applyAll init
             (l ++ [{| sub_user := u; sub_operator := o; sub_csi := csi; sub_time := ts |}]))
          u o = r).
Proof.
  split; [reflexivity|].
  destruct (applyAll_tracks l init u o) as [H1 H2].
  split; [exact H1|]. split; [exact H2|].
  intros csi ts r Hr. unfold applyAll. rewrite fold_left_app. cbn [fold_left].
  destruct (apply_Ok (fold_left apply l init)
              {| sub_user := u; sub_operator := o; sub_csi := csi; sub_time := ts |}
              r Hr u o) as [-> _].
  rewrite decide_True by (simpl; auto). reflexivity.
Qed.

(** C8. A submission whose report is shorter than 8 bytes reverts with
    "Invalid CSI data", and the state after the transaction is the state
    before it: every pair's history and latest rate are untouched. *)
Theorem C8_short_report_rejected (s : State) (u o : address) (csi : list byte) (ts : Z) :
  (length csi < 8)%nat ->
  submitReport s u o csi ts = Err (Revert "Invalid CSI data")
  /\ commit s (submitReport s u o csi ts) = s.
Proof.
  intros Hlen.
  assert (submitReport s u o csi ts = Err (Revert "Invalid CSI data")) as H.
  { unfold submitReport. destruct (validCSI csi); cbn [require bind]; [|reflexivity].
    rewrite (rateEstimation_short _ Hlen). reflexivity. }
  rewrite H. auto.
Qed.

Lemma C8_witness :
  submitReport init 1 2 [x00; x00; x00] 7 = Err (Revert "Invalid CSI data")
  /\ commit init (submitReport init 1 2 [x00; x00; x00] 7) = init.
Proof. apply (C8_short_report_rejected init 1 2 [x00; x00; x00] 7). simpl. lia. Defined.

(** C10. A report of at least 8 bytes whose big-endian [snrScaled] lies
    between 1 and 346 is accepted with rate 0, and the pair's latest rate
    is 0 after the submission: the replacement by 1,000,000 happens for
    [snrScaled = 0] only. Such reports exist: the eight bytes
    00 00 00 00 00 00 00 01. *)
Theorem C10_small_snr_gives_zero_rate :
  (forall csi : list byte,
     (8 <= length csi)%nat -> 1 <= snrOf csi <= 346 ->
     rateEstimation csi = Ok 0
     /\ forall s u o ts,
          submitReport s u o csi ts
          = Ok (commit s (submitReport s u o csi ts), [ReportSubmitted u o ts 0])
          /\ getLatestRate (commit s (submitReport s u o csi ts)) u o = 0)
  /\ (exists csi : list byte,
        (8 <= length csi)%nat /\ 1 <= snrOf csi <= 346
        /\ rateEstimation csi = Ok 0).
Proof.
  split.
  - intros csi Hlen Hsnr.
    assert (rateEstimation csi = Ok 0) as Hr.
    { rewrite (rateEstimation_value csi Hlen). unfold clampSnr.
      destruct (Z.eqb_spec (snrOf csi) 0); [lia|].
      f_equal. apply Z.div_small. change (693000 / 2) with 346500. lia. }
    split; [exact Hr|]. intros s u o ts.
    rewrite (submitReport_Ok s u o csi ts 0 Hr). cbn [commit]. split; [reflexivity|].
    unfold getLatestRate. cbn [latestOperatorUserRate].
    rewrite rd_insert, decide_True by reflexivity. reflexivity.
  - exists [x00; x00; x00; x00; x00; x00; x00; x01].
    vm_compute. repeat split; try discriminate; lia.
Qed.

Lemma C10_witness :
  rateEstimation [x00; x00; x00; x00; x00; x00; x01; x5a] = Ok 0.
Proof.
  apply (proj1 C10_small_snr_gives_zero_rate
           [x00; x00; x00; x00; x00; x00; x01; x5a]).
  - simpl. lia.
  - vm_compute. split; discriminate.
Defined.

(** Every rate a report produces is below 2^64, so the latest rates of a
    ledger filled by submissions are. *)
Lemma rateEstimation_range (csi : list byte) (r : Z) :
  rateEstimation csi = Ok r -> 0 <= r <= 2 ^ 64.
Proof.
  intros H. pose proof (rateEstimation_Ok_length _ _ H) as Hlen.
  rewrite (rateEstimation_value csi Hlen) in H. injection H as <-.
  assert (0 <= clampSnr (snrOf csi) < 2 ^ 64) as Hs.
  { pose proof (bigEndian_range (take 8 csi)) as Hr.
    rewrite length_take_le in Hr by lia. change (256 ^ Z.of_nat 8) with (2 ^ 64) in Hr.
    unfold clampSnr, snrOf. destruct (Z.eqb_spec (bigEndian (take 8 csi)) 0); lia. }
  change (693000 / 2) with 346500. split.
  - apply Z.div_pos; lia.
  - apply Z.div_le_upper_bound; lia.
Qed.

Lemma applyAll_ratesBounded (l : list Submission) (s : State) :
  ratesBounded s -> ratesBounded (applyAll s l).
Proof.
  revert s. induction l as [|x l IH]; intros s Hs; [exact Hs|].
  unfold applyAll in *. cbn [fold_left]. apply IH. clear IH.
  destruct (rateEstimation (sub_csi x)) as [r|e] eqn:Hr.
  - intros u o. destruct (apply_Ok s x r Hr u o) as [-> _].
    destruct (decide _); [eapply rateEstimation_range; eassumption | apply Hs].
  - rewrite (apply_Err s x e Hr). exact Hs.
Qed.

End StatusReportingClaims.

(** The throughput update does not overflow while the numerator fits. *)
Lemma nextThroughput_fits (old r total : Z) :
  0 <= old -> 0 <= total -> 0 <= r ->
  numeratorOf old r total <= MAX_UINT ->
  Scheduling.nextThroughput old r total
  = Ok (numeratorOf old r total / 10000, numeratorOf old r total mod 10000).
Proof.
  unfold numeratorOf, Scheduling.nextThroughput, Scheduling.alpha, Scheduling.PRECISION.
  intros Hold Htotal Hr Hfit.
  change (sub 10000 1) with (Ok (10000 - 1)). cbn [bind].
  rewrite mul_fits by nia. cbn [bind].
  rewrite mul_fits by nia. cbn [bind].
  rewrite add_fits by nia. cbn [bind].
  rewrite add_fits by nia. cbn [bind].
  rewrite div_fits, rem_fits by lia. reflexivity.
Qed.

(** ** SchedulingContract: the selection *)

Section SelectionFacts.

Variable status : StatusReporting.State.
Variable tp : gmap address uint.
Variable op : address.

Local Abbreviation prio := (priorityAt status tp op).
Local Abbreviation rate := (rateAt status op).

(** The scan keeps its start, or moves to the first position that holds
    the largest priority, which then exceeds the start's. *)
Lemma scan_spec (l : list address) (w0 : address) (b0 m0 : Z) :
  (scan status tp op l (w0, b0, m0) = (w0, b0, m0)
   /\ forall u, u ∈ l -> prio u <= m0)
  \/ exists (i : nat) (w : address),
       scan status tp op l (w0, b0, m0) = (w, rate w, prio w)
       /\ l !! i = Some w
       /\ m0 < prio w
       /\ (forall j u, l !! j = Some u -> prio u <= prio w)
       /\ (forall j u, (j < i)%nat -> l !! j = Some u -> prio u < prio w).
Proof.
  revert w0 b0 m0. induction l as [|u l IH]; intros w0 b0 m0.
  - left. split; [reflexivity|]. intros u Hu. inversion Hu.
  - cbn [scan snd]. destruct (Z.ltb_spec m0 (prio u)) as [Hlt|Hge].
    + right. destruct (IH u (rate u) (prio u)) as [[Heq Hall]|(i & w & Heq & Hi & Hm & Hle & Hlt')].
      * exists 0%nat, u. rewrite Heq. repeat split; auto.
        -- intros [|j] u' Hj; simpl in Hj.
           ++ injection Hj as <-. lia.
           ++ apply Hall. eapply list_elem_of_lookup_2; eauto.
        -- intros j u' Hj. lia.
      * exists (S i), w. rewrite Heq. repeat split; auto; try lia.
        -- intros [|j] u' Hj; simpl in Hj.
           ++ injection Hj as <-. lia.
           ++ eauto.
        -- intros [|j] u' Hj Hu'; simpl in Hu'.
           ++ injection Hu' as <-. lia.
           ++ apply (Hlt' j); [lia | assumption].
    + destruct (IH w0 b0 m0) as [[Heq Hall]|(i & w & Heq & Hi & Hm & Hle & Hlt')].
      * left. split; [exact Heq|]. intros u' Hu'.
        apply elem_of_cons in Hu'. destruct Hu' as [->|Hu']; auto.
      * right. exists (S i), w. rewrite Heq. repeat split; auto.
        -- intros [|j] u' Hj; simpl in Hj.
           ++ injection Hj as <-. lia.
           ++ eauto.
        -- intros [|j] u' Hj Hu'; simpl in Hu'.
           ++ injection Hu' as <-. lia.
           ++ apply (Hlt' j); [lia | assumption].
Qed.

End SelectionFacts.

Section SchedulingFacts.
Import Scheduling.

Variable status : StatusReporting.State.
Variable timestamp : uint.
Variable keccak256 : uint -> address -> uint.

(** Reads the fields of a state after storage writes. *)
Ltac fields :=
  cbn [set_selectedUser set_schedule set_serviceDuration set_throughput
       selectedUser throughput throughputRemainder schedulingMatrix
       allocatedRate serviceDuration statusReportingContract
       registrationContract] in *.

Lemma priority_Ok (latestRate t p : Z) :
  (if 0 <? t then x <- mul latestRate 1000000000 ;; div x t
   else mul latestRate 100000000) = Ok p ->
  p = priorityOf latestRate t.
Proof.
  unfold priorityOf. destruct (0 <? t); intros H; inv_ok; reflexivity.
Qed.

Lemma scanUser_Ok (op u : address) (s s' : State) (b m b' m' : Z) :
  scanUser status op (s, b, m) u = Ok (s', b', m') ->
  (s', b', m')
  = (if m <? priorityAt status (throughput s) op u
     then (set_selectedUser op u s, rateAt status op u,
           priorityAt status (throughput s) op u)
     else (s, b, m)).
Proof.
  unfold scanUser, getLatestRate. intros H.
  apply bind_Ok in H. destruct H as (lr & Hlr & H).
  apply bind_Ok in Hlr. destruct Hlr as (_ & _ & [= <-]).
  apply bind_Ok in H. destruct H as (p & Hp & H).
  apply priority_Ok in Hp. subst p.
  fold (rateAt status op u) in H. fold (priorityAt status (throughput s) op u) in H.
  destruct (m <? priorityAt status (throughput s) op u); congruence.
Qed.

(** The inner loop writes [selectedUser[op]] only and leaves there the
    candidate the scan chooses. *)
Lemma scan_loop (op : address) (l : list address) (s s' : State) (b m b' m' : Z) :
  foldlM (scanUser status op) (s, b, m) l = Ok (s', b', m') ->
  sameAccounts s s'
  /\ schedulingMatrix s' = schedulingMatrix s
  /\ allocatedRate s' = allocatedRate s
  /\ serviceDuration s' = serviceDuration s
  /\ (forall op', op' <> op -> rd (selectedUser s') op' = rd (selectedUser s) op')
  /\ (rd (selectedUser s') op, b', m')
     = scan status (throughput s) op l (rd (selectedUser s) op, b, m).
Proof.
  revert s b m. induction l as [|u l IH]; intros s b m H.
  - injection H as <- <- <-. unfold sameAccounts. repeat split; reflexivity.
  - cbn [foldlM] in H. apply bind_Ok in H. destruct H as ([[s1 b1] m1] & H1 & H2).
    apply scanUser_Ok in H1. apply IH in H2. clear IH.
    destruct H2 as ((Ht & Hr & Hc1 & Hc2) & Hm & Ha & Hd & Hother & Hscan).
    cbn [scan snd]. revert H1.
    destruct (m <? priorityAt status (throughput s) op u);
      intros [= -> -> ->]; fields.
    + unfold sameAccounts. repeat split; try assumption.
      * intros op' Hne. rewrite (Hother op' Hne), rd_insert, decide_False by auto.
        reflexivity.
      * rewrite Hscan, rd_insert, decide_True by reflexivity. reflexivity.
    + unfold sameAccounts. repeat split; assumption.
Qed.

(** One operator's turn: nothing changes for the other operators; for
    this one the previous mark is cleared and the chosen candidate, when
    it is not the zero address, is marked with its rate and a duration. *)
Lemma selectFor_Ok (users : list address) (s s' : State) (op : address) :
  selectFor status timestamp keccak256 users s op = Ok s' ->
  let prev := rd (selectedUser s) op in
  let w := (chosen status (throughput s) op users).1.1 in
  let bestRate := (chosen status (throughput s) op users).1.2 in
  sameAccounts s s'
  /\ (forall op', op' <> op -> sameOperator op' s s')
  /\ rd (selectedUser s') op = w
  /\ forall u,
       rdb (schedulingMatrix s') (u, op)
       = (if decide (u = w /\ w <> 0) then true
          else if decide (u = prev /\ prev <> 0) then false
          else rdb (schedulingMatrix s) (u, op))
       /\ rd (allocatedRate s') (u, op)
          = (if decide (u = w /\ w <> 0) then bestRate
             else if decide (u = prev /\ prev <> 0) then 0
             else rd (allocatedRate s) (u, op))
       /\ rd (serviceDuration s') (u, op)
          = (if decide (u = w /\ w <> 0) then 35 + keccak256 timestamp op mod 16
             else rd (serviceDuration s) (u, op)).
Proof.
  intros H prev w bestRate. unfold selectFor in H.
  apply bind_Ok in H. destruct H as ([[s1 b1] m1] & Hloop & H).
  apply scan_loop in Hloop.
  destruct Hloop as ((Ht & Hr & Hc1 & Hc2) & Hm & Ha & Hd & Hother & Hscan).
  set (s0 := if negb (rd (selectedUser s) op =? 0)
             then set_schedule (rd (selectedUser s) op) op false 0 s else s) in *.
  assert (throughput s0 = throughput s /\ throughputRemainder s0 = throughputRemainder s
          /\ statusReportingContract s0 = statusReportingContract s
          /\ registrationContract s0 = registrationContract s
          /\ selectedUser s0 = selectedUser s
          /\ serviceDuration s0 = serviceDuration s) as (Ht0 & Hr0 & Hc10 & Hc20 & Hs0 & Hd0).
  { subst s0. destruct (negb _); repeat split; reflexivity. }
  assert (forall u op',
            rdb (schedulingMatrix s0) (u, op')
            = (if decide (op' = op /\ u = prev /\ prev <> 0) then false
               else rdb (schedulingMatrix s) (u, op'))
            /\ rd (allocatedRate s0) (u, op')
               = (if decide (op' = op /\ u = prev /\ prev <> 0) then 0
                  else rd (allocatedRate s) (u, op'))) as Hclear.
  { intros u op'. subst s0. fold prev. destruct (Z.eqb_spec prev 0) as [H0|H0]; cbn [negb].
    - rewrite !decide_False by tauto. auto.
    - cbn. rewrite rdb_insert, rd_insert.
      destruct (decide ((prev, op) = (u, op'))) as [[= -> ->]|Hne].
      + rewrite !decide_True by auto. auto.
      + rewrite !decide_False by (intros (-> & -> & _); auto). auto. }
  fields.
  rewrite rd_insert, decide_True in Hscan by reflexivity.
  rewrite Ht0 in Hscan. fold (chosen status (throughput s) op users) in Hscan.
  assert (rd (selectedUser s1) op = w /\ b1 = bestRate) as [Hw Hb].
  { subst w bestRate. rewrite <- Hscan. auto. }
  clear Hscan.
  assert (forall op', op' <> op -> rd (selectedUser s1) op' = rd (selectedUser s) op') as Hsel.
  { intros op' Hne. rewrite (Hother op' Hne), rd_insert, decide_False, Hs0 by auto.
    reflexivity. }
  rewrite Hw in H. destruct (Z.eqb_spec w 0) as [H0|H0]; cbn [negb] in H.
  - injection H as <-. unfold sameAccounts, sameOperator.
    split; [repeat split; congruence|].
    split; [|split; [exact Hw|]].
    + intros op' Hne. split; [auto|]. intros u. rewrite Hm, Ha, Hd, Hd0.
      destruct (Hclear u op') as [-> ->]. rewrite !decide_False by tauto. auto.
    + intros u. rewrite Hm, Ha, Hd, Hd0. destruct (Hclear u op) as [-> ->].
      rewrite !(decide_False (P := u = w /\ w <> 0)) by tauto.
      destruct (decide (u = prev /\ prev <> 0)).
      * rewrite !decide_True by tauto. auto.
      * rewrite !decide_False by tauto. auto.
  - inv_ok. injection H as <-. unfold sameAccounts, sameOperator. fields.
    split; [repeat split; congruence|].
    split; [|split; [exact Hw|]].
    + intros op' Hne. split; [auto|]. intros u.
      rewrite rdb_insert, !rd_insert, Hm, Ha, Hd, Hd0.
      rewrite !decide_False by (intros [= ? ?]; auto).
      destruct (Hclear u op') as [-> ->]. rewrite !decide_False by tauto. auto.
    + intros u. rewrite rdb_insert, !rd_insert, Hm, Ha, Hd, Hd0.
      destruct (Hclear u op) as [-> ->].
      destruct (decide (u = w /\ w <> 0)) as [[-> _]|Hne].
      * rewrite !decide_True by reflexivity. auto.
      * rewrite !(decide_False (P := (w, op) = (u, op))) by (intros [= ->]; tauto).
        destruct (decide (u = prev /\ prev <> 0)).
        -- rewrite !decide_True by tauto. auto.
        -- rewrite !decide_False by tauto. auto.
Qed.

Lemma sameOperator_refl (op : address) (s : State) : sameOperator op s s.
Proof. unfold sameOperator. auto. Qed.

Lemma sameOperator_trans (op : address) (s1 s2 s3 : State) :
  sameOperator op s1 s2 -> sameOperator op s2 s3 -> sameOperator op s1 s3.
Proof.
  intros [H1 H1'] [H2 H2']. split; [congruence|].
  intros u. destruct (H1' u) as (? & ? & ?), (H2' u) as (? & ? & ?).
  repeat split; congruence.
Qed.

Lemma sameAccounts_trans (s1 s2 s3 : State) :
  sameAccounts s1 s2 -> sameAccounts s2 s3 -> sameAccounts s1 s3.
Proof. unfold sameAccounts. intros (? & ? & ? & ?) (? & ? & ? & ?). repeat split; congruence. Qed.

Lemma sameSelection_sameOperator (op : address) (s s' : State) :
  sameSelection s s' -> sameOperator op s s'.
Proof.
  intros (Hs & Hm & Ha & Hd & _). unfold sameOperator. rewrite Hs, Hm, Ha, Hd. auto.
Qed.

(** The selection phase: every operator of the list ends with the
    candidate the scan chooses from the throughput of the start of the
    round; operators outside the list are left alone. *)
Lemma selection_phase (users ops : list address) (s s1 : State) :
  foldlM (selectFor status timestamp keccak256 users) s ops = Ok s1 ->
  sameAccounts s s1
  /\ (forall op, op ∉ ops -> sameOperator op s s1)
  /\ (forall op, op ∈ ops ->
        let w := (chosen status (throughput s) op users).1.1 in
        rd (selectedUser s1) op = w
        /\ (w <> 0 ->
            rdb (schedulingMatrix s1) (w, op) = true
            /\ rd (allocatedRate s1) (w, op)
               = (chosen status (throughput s) op users).1.2
            /\ rd (serviceDuration s1) (w, op)
               = 35 + keccak256 timestamp op mod 16)).
Proof.
  revert s. induction ops as [|op0 ops IH]; intros s H.
  - injection H as <-. split; [unfold sameAccounts; auto|].
    split; [intros; apply sameOperator_refl|]. intros op Hin. inversion Hin.
  - cbn [foldlM] in H. apply bind_Ok in H. destruct H as (sa & Hsa & H).
    apply selectFor_Ok in Hsa. destruct Hsa as (Hacc & Hothers & Hw & Hat).
    apply IH in H. clear IH. destruct H as (Hacc' & Hout & Hin).
    assert (throughput sa = throughput s) as Ht by apply Hacc.
    split; [eapply sameAccounts_trans; eassumption|].
    split.
    + intros op Hop. apply not_elem_of_cons in Hop. destruct Hop as [Hne Hop].
      eapply sameOperator_trans; [apply Hothers | apply Hout]; assumption.
    + intros op Hop w. subst w.
      destruct (decide (op ∈ ops)) as [Hops|Hops].
      * specialize (Hin op Hops). rewrite Ht in Hin. exact Hin.
      * apply elem_of_cons in Hop. destruct Hop as [->|Hop]; [|contradiction].
        destruct (Hout op0 Hops) as [Hsel Hrest].
        split; [congruence|]. intros Hw0.
        destruct (Hrest (chosen status (throughput s) op0 users).1.1) as (-> & -> & ->).
        destruct (Hat (chosen status (throughput s) op0 users).1.1) as (-> & -> & ->).
        rewrite !decide_True by auto. auto.
Qed.

Lemma totalAllocated_loop (ops : list address) (s : State) (u : address) (acc t : Z) :
  foldlM (fun totalAllocated op =>
            if rdb (schedulingMatrix s) (u, op)
            then add totalAllocated (rd (allocatedRate s) (u, op))
            else Ok totalAllocated) acc ops = Ok t ->
  t = acc + sumAllocated ops s u.
Proof.
  revert acc. induction ops as [|op ops IH]; intros acc H.
  - injection H as <-. simpl. lia.
  - cbn [foldlM] in H. apply bind_Ok in H. destruct H as (a & Ha & H).
    apply IH in H. subst t. cbn [sumAllocated foldr].
    fold (sumAllocated ops s u).
    destruct (rdb (schedulingMatrix s) (u, op)); [inv_ok | injection Ha as <-]; lia.
Qed.

Lemma nextThroughput_Ok (old r total v' r' : Z) :
  nextThroughput old r total = Ok (v', r') ->
  v' = numeratorOf old r total / alpha
  /\ r' = numeratorOf old r total mod alpha
  /\ numeratorOf old r total <= MAX_UINT.
Proof.
  unfold nextThroughput, numeratorOf, PRECISION. intros H.
  change (sub alpha 1) with (Ok (alpha - 1)) in H. cbn [bind] in H.
  inv_ok. injection H as <- <-. auto.
Qed.

Lemma updateThroughput_Ok (ops : list address) (s s' : State) (u : address) :
  updateThroughput ops s u = Ok s' ->
  let n := numeratorOf (rd (throughput s) u) (rd (throughputRemainder s) u)
             (sumAllocated ops s u) in
  sameSelection s s'
  /\ throughput s' = <[u := n / alpha]> (throughput s)
  /\ throughputRemainder s' = <[u := n mod alpha]> (throughputRemainder s).
Proof.
  intros H n. unfold updateThroughput in H.
  apply bind_Ok in H. destruct H as (t & Ht & H).
  apply totalAllocated_loop in Ht. rewrite Z.add_0_l in Ht. subst t.
  apply bind_Ok in H. destruct H as ([v' r'] & Hn & [= <-]).
  apply nextThroughput_Ok in Hn. destruct Hn as (-> & -> & _).
  unfold sameSelection. fields. cbn [fst snd]. repeat split; reflexivity.
Qed.

Lemma sumAllocated_sameSelection (ops : list address) (s s' : State) (u : address) :
  sameSelection s s' -> sumAllocated ops s' u = sumAllocated ops s u.
Proof. intros (_ & Hm & Ha & _). unfold sumAllocated. rewrite Hm, Ha. reflexivity. Qed.

Lemma sameSelection_trans (s1 s2 s3 : State) :
  sameSelection s1 s2 -> sameSelection s2 s3 -> sameSelection s1 s3.
Proof.
  unfold sameSelection. intros (? & ? & ? & ? & ? & ?) (? & ? & ? & ? & ? & ?).
  repeat split; congruence.
Qed.

(** The throughput phase: every user of a duplicate-free list gets one
    update, computed from the state the selection phase left; the other
    users and the selection are not touched. *)
Lemma throughput_phase (ops us : list address) (s1 s2 : State) :
  NoDup us ->
  foldlM (updateThroughput ops) s1 us = Ok s2 ->
  sameSelection s1 s2
  /\ forall u,
       let n := numeratorOf (rd (throughput s1) u) (rd (throughputRemainder s1) u)
                  (sumAllocated ops s1 u) in
       (u ∈ us ->
        rd (throughput s2) u = n / alpha
        /\ rd (throughputRemainder s2) u = n mod alpha)
       /\ (u ∉ us ->
           rd (throughput s2) u = rd (throughput s1) u
           /\ rd (throughputRemainder s2) u = rd (throughputRemainder s1) u).
Proof.
  intros Hnd. revert s1. induction Hnd as [|u0 us Hu0 Hnd IH]; intros s1 H.
  - injection H as <-. split; [unfold sameSelection; repeat split; reflexivity|].
    intros u. cbn zeta. split; [intros Hin; inversion Hin | auto].
  - cbn [foldlM] in H. apply bind_Ok in H. destruct H as (sa & Hsa & H).
    apply updateThroughput_Ok in Hsa. destruct Hsa as (Hsel & Htp & Hrem).
    apply IH in H. clear IH. destruct H as (Hsel' & Hus).
    split; [eapply sameSelection_trans; eassumption|].
    intros u. cbn zeta. specialize (Hus u). cbn zeta in Hus.
    rewrite (sumAllocated_sameSelection ops s1 sa u Hsel), Htp, Hrem, !rd_insert in Hus.
    destruct Hus as [Hin Hout]. split.
    + intros Hu. apply elem_of_cons in Hu. destruct Hu as [->|Hu].
      * destruct (Hout Hu0) as [-> ->]. rewrite !decide_True by reflexivity. auto.
      * rewrite !decide_False in Hin by (intros ->; contradiction). auto.
    + intros Hu. apply not_elem_of_cons in Hu. destruct Hu as [Hne Hu].
      rewrite !decide_False in Hout by auto. auto.
Qed.

Lemma updateScheduling_Ok (reg : Registration.State) (s s' : State) (ev : list Event) :
  updateScheduling status reg timestamp keccak256 s = Ok (s', ev) ->
  exists s1,
    foldlM (selectFor status timestamp keccak256 (Registration.getAllUsers reg)) s
      (Registration.getAllOperators reg) = Ok s1
    /\ foldlM (updateThroughput (Registration.getAllOperators reg)) s1
         (Registration.getAllUsers reg) = Ok s'
    /\ ev = [Scheduled (Registration.getAllOperators reg)
               (getSelectedUsers s' (Registration.getAllOperators reg))].
Proof.
  unfold updateScheduling. intros H.
  apply bind_Ok in H. destruct H as (s1 & H1 & H).
  apply bind_Ok in H. destruct H as (s2 & H2 & [= <- <-]).
  eauto.
Qed.

Lemma throughput_phase_selection (ops us : list address) (s1 s2 : State) :
  foldlM (updateThroughput ops) s1 us = Ok s2 -> sameSelection s1 s2.
Proof.
  apply (foldlM_invariant (sameSelection s1)).
  - intros a u a' _ Ha H. apply updateThroughput_Ok in H.
    eapply sameSelection_trans; [exact Ha | apply H].
  - unfold sameSelection. repeat split; reflexivity.
Qed.

Lemma selectFor_oneSelection (users : list address) (s s' : State) (op : address) :
  oneSelection s ->
  selectFor status timestamp keccak256 users s op = Ok s' ->
  oneSelection s'.
Proof.
  intros Hinv H. apply selectFor_Ok in H. destruct H as (_ & Hothers & Hw & Hat).
  intros u op'. destruct (decide (op' = op)) as [->|Hne].
  - destruct (Hat u) as (-> & _). rewrite Hw.
    set (w := (chosen status (throughput s) op users).1.1) in *.
    destruct (decide (u = w /\ w <> 0)) as [[-> ?]|Hnw]; [tauto|].
    destruct (decide (u = rd (selectedUser s) op /\ rd (selectedUser s) op <> 0))
      as [?|Hnp].
    + split; [discriminate|]. intros [<- ?]. tauto.
    + rewrite (Hinv u op). split; [intros [<- ?]; tauto|]. intros [<- ?]. tauto.
  - destruct (Hothers op' Hne) as [-> Hrest]. destruct (Hrest u) as (-> & _).
    apply Hinv.
Qed.

Lemma updateScheduling_oneSelection (reg : Registration.State) (s s' : State)
    (ev : list Event) :
  oneSelection s ->
  updateScheduling status reg timestamp keccak256 s = Ok (s', ev) ->
  oneSelection s'.
Proof.
  intros Hinv H. apply updateScheduling_Ok in H. destruct H as (s1 & H1 & H2 & _).
  assert (oneSelection s1) as Hinv1.
  { revert H1. apply foldlM_invariant; [|exact Hinv].
    intros a op a' _ Ha. apply selectFor_oneSelection. exact Ha. }
  apply throughput_phase_selection in H2. destruct H2 as (Hs & Hm & _).
  intros u op. rewrite Hs, Hm. apply Hinv1.
Qed.

(** C9. The selection invariant -- the scheduling matrix marks, for each
    operator, exactly the operator's recorded selected user when there is
    one, and nobody otherwise -- holds after every call of
    [updateScheduling] from a state where it holds (a call that reverts
    keeps the state); so at most one user is marked per operator. *)
Theorem C9_one_selected_user_per_operator (reg : Registration.State) (s : State) :
  oneSelection s ->
  let s' := commit s (updateScheduling status reg timestamp keccak256 s) in
  oneSelection s'
  /\ forall u1 u2 op,
       getSchedulingMatrix s' u1 op = true ->
       getSchedulingMatrix s' u2 op = true ->
       u1 = u2 /\ rd (selectedUser s') op = u1.
Proof.
  intros Hinv s'.
  assert (oneSelection s') as Hinv'.
  { subst s'. destruct (updateScheduling status reg timestamp keccak256 s)
      as [[s1 ev]|e] eqn:H; cbn [commit]; [|exact Hinv].
    eapply updateScheduling_oneSelection; eassumption. }
  split; [exact Hinv'|]. unfold getSchedulingMatrix. intros u1 u2 op H1 H2.
  apply Hinv' in H1, H2. destruct H1 as [H1 _], H2 as [H2 _]. split; congruence.
Qed.

(** C2. After a call of [updateScheduling], for every operator of the
    list: with [prio u] the priority of user [u] computed from the
    throughput at the start of the round, the recorded selected user is
    none when no user has a positive priority; otherwise it is the user at
    the first position of the user list that holds the largest priority
    (every earlier user has a strictly smaller one). When a user is
    recorded, some candidate had a positive priority, the pair is marked
    in the scheduling matrix and its allocated rate is that user's latest
    reported rate for the operator. *)
Theorem C2_selection_is_first_maximum (reg : Registration.State) (s s' : State)
    (ev : list Event) (op : address) :
  updateScheduling status reg timestamp keccak256 s = Ok (s', ev) ->
  op ∈ Registration.getAllOperators reg ->
  let users := Registration.getAllUsers reg in
  let prio := priorityAt status (throughput s) op in
  let sel := rd (selectedUser s') op in
  ((forall u, u ∈ users -> prio u <= 0) -> sel = 0)
  /\ ((exists u, u ∈ users /\ 0 < prio u) ->
      exists i : nat,
        users !! i = Some sel
        /\ 0 < prio sel
        /\ (forall j u, users !! j = Some u -> prio u <= prio sel)
        /\ (forall j u, (j < i)%nat -> users !! j = Some u -> prio u < prio sel))
  /\ (sel <> 0 ->
      (exists u, u ∈ users /\ 0 < prio u)
      /\ getSchedulingMatrix s' sel op = true
      /\ rd (allocatedRate s') (sel, op) = StatusReporting.getLatestRate status sel op).
Proof.
  intros H Hop users prio sel. subst prio.
  apply updateScheduling_Ok in H. destruct H as (s1 & H1 & H2 & _).
  apply selection_phase in H1. destruct H1 as (_ & _ & Hin).
  specialize (Hin op Hop). cbn zeta in Hin. fold users in Hin.
  apply throughput_phase_selection in H2. destruct H2 as (Hs & Hm & Ha & _).
  unfold getSchedulingMatrix. subst sel. rewrite Hs, Hm, Ha.
  destruct Hin as [Hw Hmark]. rewrite Hw. clear Hw Hs Hm Ha.
  unfold chosen in *.
  destruct (scan_spec status (throughput s) op users 0 0 0)
    as [[Heq Hall]|(i & w & Heq & Hi & Hpos & Hle & Hlt)];
    rewrite Heq in *; cbn [fst snd] in *.
  - split; [reflexivity|]. split.
    + intros (u & Hu & Hpu). specialize (Hall u Hu). lia.
    + intros Hne. contradiction.
  - split; [|split].
    + intros Hall. apply list_elem_of_lookup_2 in Hi. specialize (Hall w Hi). lia.
    + intros _. exists i. auto.
    + intros Hne. destruct (Hmark Hne) as (Hm' & Ha' & _).
      split; [|split; assumption].
      exists w. split; [eapply list_elem_of_lookup_2; eassumption | assumption].
Qed.

Lemma sumAllocated_selected (ops : list address) (s : State) (u : address) :
  oneSelection s ->
  sumAllocated ops s u
  = foldr (fun op acc =>
             (if decide (rd (selectedUser s) op = u /\ u <> 0)
              then rd (allocatedRate s) (u, op) else 0) + acc) 0 ops.
Proof.
  intros Hinv. unfold sumAllocated. induction ops as [|op ops IH]; [reflexivity|].
  cbn [foldr]. rewrite IH. f_equal.
  destruct (decide (rd (selectedUser s) op = u /\ u <> 0)) as [Hy|Hn].
  - apply Hinv in Hy. rewrite Hy. reflexivity.
  - destruct (rdb (schedulingMatrix s) (u, op)) eqn:Hm; [|reflexivity].
    apply Hinv in Hm. contradiction.
Qed.

(** C5. A call of [updateScheduling] on a duplicate-free user list gives
    every listed user, selected or not, one throughput update: with
    [totalAllocated] the sum of the allocated rates of the operators of
    the list that mark the user selected after the selection,
    [numerator = (alpha - 1) * value + totalAllocated * PRECISION +
    remainder], the new value is [numerator / alpha] and the new remainder
    [numerator mod alpha], with [alpha = 10000] and [PRECISION = 1e8]. A
    user outside the list keeps its pair. Under the selection invariant
    the operators that mark the user are those whose recorded selected
    user it is. *)
Theorem C5_throughput_updated_once (reg : Registration.State) (s s' : State)
    (ev : list Event) (u : address) :
  updateScheduling status reg timestamp keccak256 s = Ok (s', ev) ->
  NoDup (Registration.getAllUsers reg) ->
  let operators := Registration.getAllOperators reg in
  let totalAllocated := sumAllocated operators s' u in
  let numerator :=
    (10000 - 1) * rd (throughput s) u + totalAllocated * 100000000
    + rd (throughputRemainder s) u in
  (u ∈ Registration.getAllUsers reg ->
   rd (throughput s') u = numerator / 10000
   /\ rd (throughputRemainder s') u = numerator mod 10000)
  /\ (u ∉ Registration.getAllUsers reg ->
      rd (throughput s') u = rd (throughput s) u
      /\ rd (throughputRemainder s') u = rd (throughputRemainder s) u)
  /\ (oneSelection s ->
      totalAllocated
      = foldr (fun op acc =>
                 (if decide (rd (selectedUser s') op = u /\ u <> 0)
                  then rd (allocatedRate s') (u, op) else 0) + acc) 0 operators).
Proof.
  intros H Hnd operators totalAllocated numerator.
  pose proof H as Hrun.
  apply updateScheduling_Ok in H. destruct H as (s1 & H1 & H2 & _).
  apply selection_phase in H1. destruct H1 as ((Ht & Hr & _) & _).
  apply (throughput_phase _ _ _ _ Hnd) in H2. destruct H2 as (Hsel & Hus).
  specialize (Hus u). cbn zeta in Hus.
  rewrite <- (sumAllocated_sameSelection _ _ _ u Hsel), Ht, Hr in Hus.
  fold operators in Hus. fold totalAllocated in Hus.
  split; [apply Hus|]. split; [apply Hus|].
  intros Hinv. subst totalAllocated. apply sumAllocated_selected.
  eapply updateScheduling_oneSelection; eassumption.
Qed.

(** A loop whose every iteration succeeds and keeps [P] succeeds. *)
Lemma foldlM_total {A B} (P : A -> Prop) (f : A -> B -> Result A) (l : list B) :
  (forall a x, x ∈ l -> P a -> exists a', f a x = Ok a' /\ P a') ->
  forall a, P a -> exists a', foldlM f a l = Ok a' /\ P a'.
Proof.
  induction l as [|x l IH]; intros Hf a Ha.
  - exists a. auto.
  - destruct (Hf a x) as (a1 & H1 & HP1); [left | exact Ha |].
    destruct (IH (fun a x Hx => Hf a x (list_elem_of_further _ _ _ Hx)) a1 HP1)
      as (a' & H' & HP').
    exists a'. cbn [foldlM]. rewrite H1. auto.
Qed.

Lemma selectFor_no_users (s : State) (op : address) :
  exists s', selectFor status timestamp keccak256 [] s op = Ok s'.
Proof.
  unfold selectFor. cbn [foldlM bind]. fields.
  rewrite rd_insert, decide_True by reflexivity. cbn. eauto.
Qed.

(** Without operators the throughput update of a user whose value is 0
    and whose remainder is below [alpha] writes the pair back. *)
Lemma updateThroughput_idle (s : State) (u : address) :
  rd (throughput s) u = 0 ->
  0 <= rd (throughputRemainder s) u < alpha ->
  updateThroughput [] s u
  = Ok (set_throughput u 0 (rd (throughputRemainder s) u) s).
Proof.
  intros Hv Hr. unfold updateThroughput, totalAllocatedOf, nextThroughput.
  cbn [foldlM bind]. rewrite Hv.
  change (sub alpha 1) with (Ok 9999). cbn [bind].
  change (mul 9999 0) with (Ok 0). change (mul 0 100000000) with (Ok 0). cbn [bind].
  change (add 0 0) with (Ok 0). cbn [bind].
  assert (alpha <= MAX_UINT) by (vm_compute; discriminate).
  rewrite add_fits by lia. cbn [bind].
  unfold alpha in *. rewrite div_fits, rem_fits by lia. cbn [bind fst snd].
  rewrite Z.add_0_l, Z.div_small, Z.mod_small by lia. reflexivity.
Qed.

(** C4, as the code has it. With an empty operator list a call of
    [updateScheduling] changes no selection state and emits
    [Scheduled([], [])], but it still gives every listed user a
    throughput update with [totalAllocated = 0]; it changes nothing
    observable when every listed user has throughput 0 (and a remainder
    below [alpha]). With an empty user list the call succeeds, leaves the
    throughput alone, and every listed operator ends with no selected
    user and, under the selection invariant, no marked pair. *)
Theorem C4_empty_lists (reg : Registration.State) (s : State) :
  let users := Registration.getAllUsers reg in
  let operators := Registration.getAllOperators reg in
  let run := updateScheduling status reg timestamp keccak256 s in
  (operators = [] ->
   forall s' ev, run = Ok (s', ev) ->
     sameSelection s s' /\ ev = [Scheduled [] []]
     /\ (NoDup users -> forall u, u ∈ users ->
           rd (throughput s') u
           = ((10000 - 1) * rd (throughput s) u + rd (throughputRemainder s) u) / 10000
           /\ rd (throughputRemainder s') u
              = ((10000 - 1) * rd (throughput s) u + rd (throughputRemainder s) u)
                mod 10000))
  /\ (operators = [] ->
      (forall u, u ∈ users ->
         rd (throughput s) u = 0 /\ 0 <= rd (throughputRemainder s) u < 10000) ->
      exists s', run = Ok (s', [Scheduled [] []])
        /\ sameSelection s s'
        /\ forall u, rd (throughput s') u = rd (throughput s) u
                     /\ rd (throughputRemainder s') u = rd (throughputRemainder s) u)
  /\ (users = [] ->
      exists s', run = Ok (s', [Scheduled operators (getSelectedUsers s' operators)])
        /\ sameAccounts s s'
        /\ (forall op, op ∈ operators -> rd (selectedUser s') op = 0)
        /\ (oneSelection s ->
            forall op u, op ∈ operators -> getSchedulingMatrix s' u op = false)).
Proof.
  intros users operators run. split; [|split].
  - intros Hops s' ev H. pose proof H as Hrun. subst run.
    apply updateScheduling_Ok in H. fold users operators in H.
    rewrite Hops in H. destruct H as (s1 & H1 & H2 & ->).
    injection H1 as <-. split; [eapply throughput_phase_selection; eassumption|].
    split; [reflexivity|]. intros Hnd u Hu.
    apply (throughput_phase _ _ _ _ Hnd) in H2. destruct H2 as (_ & Hus).
    destruct (Hus u) as [Hin _]. specialize (Hin Hu).
    unfold numeratorOf, alpha, PRECISION in Hin. cbn [sumAllocated foldr] in Hin.
    rewrite Z.mul_0_l, Z.add_0_r in Hin. exact Hin.
  - intros Hops Hidle. subst run. unfold updateScheduling.
    fold users operators. rewrite Hops. cbn [foldlM bind].
    destruct (foldlM_total
                (fun a => sameSelection s a
                          /\ forall u, rd (throughput a) u = rd (throughput s) u
                                       /\ rd (throughputRemainder a) u
                                          = rd (throughputRemainder s) u)
                (updateThroughput []) users) with (a := s)
      as (s' & Hs' & Hsel & Hsame).
    + intros a u Hu (Hsel & Hsame). destruct (Hidle u Hu) as [Hv Hr].
      destruct (Hsame u) as [Hv' Hr'].
      rewrite updateThroughput_idle by (unfold alpha; lia).
      eexists. split; [reflexivity|]. split.
      * unfold sameSelection in *. fields. exact Hsel.
      * intros u'. fields. rewrite !rd_insert.
        destruct (decide (u = u')) as [<-|Hne]; [|apply Hsame].
        split; congruence.
    + split; [unfold sameSelection; repeat split; reflexivity | auto].
    + exists s'. rewrite Hs'. cbn [bind getSelectedUsers map]. auto.
  - intros Husers. subst run. unfold updateScheduling.
    fold users operators. rewrite Husers.
    destruct (foldlM_total (fun _ => True)
                (selectFor status timestamp keccak256 []) operators) with (a := s)
      as (s1 & Hs1 & _); [|exact I|].
    { intros a op _ _. destruct (selectFor_no_users a op) as [a' Ha']. eauto. }
    rewrite Hs1. cbn [foldlM bind]. exists s1. split; [reflexivity|].
    pose proof (selection_phase _ _ _ _ Hs1) as (Hacc & _ & Hin).
    split; [exact Hacc|].
    assert (forall op, op ∈ operators -> rd (selectedUser s1) op = 0) as Hnone.
    { intros op Hop. apply (Hin op Hop). }
    split; [exact Hnone|]. intros Hinv op u Hop.
    assert (oneSelection s1) as Hinv1.
    { revert Hs1. apply foldlM_invariant; [|exact Hinv].
      intros a op' a' _ Ha. apply selectFor_oneSelection. exact Ha. }
    unfold getSchedulingMatrix.
    destruct (rdb (schedulingMatrix s1) (u, op)) eqn:Hm; [|reflexivity].
    apply Hinv1 in Hm. rewrite (Hnone op Hop) in Hm. destruct Hm. congruence.
Qed.

(** *** The call does not revert on bounded states *)

Section Totality.

Hypothesis rates : ratesBounded status.

Lemma scanUser_total (op u : address) (s : State) (b m : Z) :
  statusReportingContract s <> 0 ->
  exists acc, scanUser status op (s, b, m) u = Ok acc
              /\ statusReportingContract acc.1.1 = statusReportingContract s.
Proof.
  intros Hset. unfold scanUser, getLatestRate.
  apply Z.eqb_neq in Hset. rewrite Hset. cbn [negb require bind].
  pose proof (rates u op) as Hr.
  assert (2 ^ 64 * 1000000000 <= MAX_UINT) by (vm_compute; discriminate).
  destruct (Z.ltb_spec 0 (rd (throughput s) u)).
  - rewrite mul_fits by nia. cbn [bind]. rewrite div_fits by lia. cbn [bind].
    destruct (_ <? _); eexists; split; reflexivity.
  - rewrite mul_fits by nia. cbn [bind].
    destruct (_ <? _); eexists; split; reflexivity.
Qed.

Lemma chosen_rate_bounded (tp : gmap address uint) (op : address) (users : list address) :
  0 <= (chosen status tp op users).1.2 <= 2 ^ 64.
Proof.
  unfold chosen.
  destruct (scan_spec status tp op users 0 0 0) as [[-> _]|(i & w & -> & _)];
    cbn [fst snd]; [lia | apply rates].
Qed.

Lemma selectFor_total (users : list address) (s : State) (op : address) :
  bounded s ->
  exists s', selectFor status timestamp keccak256 users s op = Ok s' /\ bounded s'.
Proof.
  intros (Hset & Halloc & Htp & Hrem).
  assert (exists s', selectFor status timestamp keccak256 users s op = Ok s') as [s' Hs'].
  { unfold selectFor.
    set (s0 := set_selectedUser op 0 _).
    assert (statusReportingContract s0 = statusReportingContract s) as Hs0.
    { subst s0. destruct (negb _); reflexivity. }
    destruct (foldlM_total
                (fun acc : State * Z * Z =>
                   statusReportingContract acc.1.1 = statusReportingContract s)
                (scanUser status op) users) with (a := (s0, 0, 0))
      as ([[s1 b1] m1] & Hloop & _); [|exact Hs0|].
    { intros [[a b] m] u _ Ha. cbn [fst] in Ha.
      destruct (scanUser_total op u a b m) as (acc & Hacc & Hc); [congruence|].
      exists acc. split; [exact Hacc | congruence]. }
    rewrite Hloop. cbn [bind].
    destruct (negb (rd (selectedUser s1) op =? 0)); [|eexists; reflexivity].
    rewrite rem_fits by lia. cbn [bind].
    pose proof (Z.mod_pos_bound (keccak256 timestamp op) 16 ltac:(lia)).
    assert (100 <= MAX_UINT) by (vm_compute; discriminate).
    rewrite add_fits by lia. cbn [bind]. eexists. reflexivity. }
  exists s'. split; [exact Hs'|].
  apply selectFor_Ok in Hs'. destruct Hs' as ((Ht & Hr & Hc & _) & Hothers & _ & Hat).
  unfold bounded. rewrite Ht, Hr, Hc.
  split; [exact Hset|]. split; [|split; assumption].
  intros u op'. destruct (decide (op' = op)) as [->|Hne].
  - destruct (Hat u) as (_ & -> & _).
    pose proof (chosen_rate_bounded (throughput s) op users).
    repeat destruct (decide _); [assumption | lia | apply Halloc].
  - destruct (Hothers op' Hne) as [_ Hrest]. destruct (Hrest u) as (_ & -> & _).
    apply Halloc.
Qed.

Lemma sumAllocated_bounded (ops : list address) (s : State) (u : address) :
  (forall u op, 0 <= rd (allocatedRate s) (u, op) <= 2 ^ 64) ->
  0 <= sumAllocated ops s u <= Z.of_nat (length ops) * 2 ^ 64.
Proof.
  intros Halloc. unfold sumAllocated. induction ops as [|op ops IH].
  - cbn. lia.
  - cbn [foldr length]. rewrite Nat2Z.inj_succ.
    pose proof (Halloc u op). destruct (rdb _ _); lia.
Qed.

Lemma totalAllocatedOf_total (ops : list address) (s : State) (u : address) :
  (forall u op, 0 <= rd (allocatedRate s) (u, op) <= 2 ^ 64) ->
  Z.of_nat (length ops) <= 2 ^ 64 ->
  totalAllocatedOf ops s u = Ok (sumAllocated ops s u).
Proof.
  intros Halloc Hlen. unfold totalAllocatedOf.
  assert (2 ^ 64 * 2 ^ 64 <= MAX_UINT) as Hmax by (vm_compute; discriminate).
  assert (forall acc, 0 <= acc ->
            acc + Z.of_nat (length ops) * 2 ^ 64 <= MAX_UINT ->
            foldlM (fun totalAllocated op =>
                      if rdb (schedulingMatrix s) (u, op)
                      then add totalAllocated (rd (allocatedRate s) (u, op))
                      else Ok totalAllocated) acc ops
            = Ok (acc + sumAllocated ops s u)) as Hloop.
  { clear Hlen. induction ops as [|op ops IH]; intros acc Hacc Hfit.
    - cbn. f_equal. lia.
    - cbn [foldlM sumAllocated foldr length] in *. fold (sumAllocated ops s u).
      rewrite Nat2Z.inj_succ in Hfit. pose proof (Halloc u op).
      destruct (rdb (schedulingMatrix s) (u, op)).
      + rewrite add_fits by lia. cbn [bind]. rewrite IH by lia. f_equal; lia.
      + cbn [bind]. rewrite IH by lia. f_equal; lia. }
  rewrite Hloop by nia. reflexivity.
Qed.

Lemma updateThroughput_total (ops : list address) (s : State) (u : address) :
  bounded s ->
  Z.of_nat (length ops) <= 2 ^ 64 ->
  exists s', updateThroughput ops s u = Ok s' /\ bounded s'.
Proof.
  intros (Hset & Halloc & Htp & Hrem) Hlen.
  pose proof (sumAllocated_bounded ops s u Halloc) as Hsum.
  pose proof (Htp u) as Hv. pose proof (Hrem u) as Hr.
  set (n := numeratorOf (rd (throughput s) u) (rd (throughputRemainder s) u)
              (sumAllocated ops s u)).
  assert (0 <= n <= 9999 * 2 ^ 160 + 2 ^ 64 * 2 ^ 64 * 100000000 + 10000) as Hn.
  { subst n. unfold numeratorOf, alpha, PRECISION. nia. }
  assert (9999 * 2 ^ 160 + 2 ^ 64 * 2 ^ 64 * 100000000 + 10000 <= MAX_UINT) as Hmax
    by (vm_compute; discriminate).
  unfold updateThroughput. rewrite totalAllocatedOf_total by assumption. cbn [bind].
  rewrite nextThroughput_fits by (fold n; lia). fold n. cbn [bind fst snd].
  eexists. split; [reflexivity|].
  unfold bounded. fields. split; [exact Hset|]. split; [exact Halloc|].
  split; intros u'; rewrite rd_insert; destruct (decide (u = u')); auto.
  - split; [apply Z.div_pos; lia|].
    assert (n / 10000 < 2 ^ 160 + 1); [|lia].
    apply Z.div_lt_upper_bound; [lia|].
    assert (2 ^ 64 * 2 ^ 64 * 100000000 + 10000 <= 2 ^ 160) by (vm_compute; discriminate).
    lia.
  - apply Z.mod_pos_bound. lia.
Qed.

(** On a bounded state, with bounded latest rates and at most 2^64
    operators, [updateScheduling] returns, and the state it returns is
    bounded again. *)
Lemma updateScheduling_total (reg : Registration.State) (s : State) :
  bounded s ->
  Z.of_nat (length (Registration.getAllOperators reg)) <= 2 ^ 64 ->
  exists s' ev,
    updateScheduling status reg timestamp keccak256 s = Ok (s', ev) /\ bounded s'.
Proof.
  intros Hb Hlen. unfold updateScheduling.
  destruct (foldlM_total bounded
              (selectFor status timestamp keccak256 (Registration.getAllUsers reg))
              (Registration.getAllOperators reg)) with (a := s)
    as (s1 & Hs1 & Hb1); [|exact Hb|].
  { intros a op _ Ha. apply selectFor_total. exact Ha. }
  destruct (foldlM_total bounded
              (updateThroughput (Registration.getAllOperators reg))
              (Registration.getAllUsers reg)) with (a := s1)
    as (s2 & Hs2 & Hb2); [|exact Hb1|].
  { intros a u _ Ha. apply updateThroughput_total; assumption. }
  rewrite Hs1. cbn [bind]. rewrite Hs2. cbn [bind]. eauto.
Qed.

End Totality.

End SchedulingFacts.

(** ** The throughput average *)

Section EwmaFacts.
Import QArith Qround.
Local Open Scope Z_scope.

Lemma exact_closed (x : Z) (k : nat) :
  (Ewma.exact x k == inject_Z (ewmaNum x k) / inject_Z (10000 ^ Z.of_nat k))%Q.
Proof.
  induction k as [|k IH].
  - reflexivity.
  - assert (0 < 10000 ^ Z.of_nat k) as Hpos by (apply Z.pow_pos_nonneg; lia).
    cbn [Ewma.exact ewmaNum]. rewrite IH.
    rewrite Nat2Z.inj_succ, Z.pow_succ_r by lia.
    rewrite inject_Z_plus, !inject_Z_mult.
    assert (~ (inject_Z (10000 ^ Z.of_nat k) == 0)%Q) as Hne.
    { change 0%Q with (inject_Z 0). rewrite inject_Z_injective. lia. }
    field. exact Hne.
Qed.

Lemma floored_closed (x : Z) (k : nat) :
  Ewma.floored x k = (ewmaNum x k * 100000000) / 10000 ^ Z.of_nat k.
Proof.
  unfold Ewma.floored. rewrite Zdiv_Qdiv. apply Qfloor_comp.
  rewrite exact_closed, inject_Z_mult.
  assert (0 < 10000 ^ Z.of_nat k) as Hpos by (apply Z.pow_pos_nonneg; lia).
  assert (~ (inject_Z (10000 ^ Z.of_nat k) == 0)%Q) as Hne.
  { change 0%Q with (inject_Z 0). rewrite inject_Z_injective. lia. }
  field. exact Hne.
Qed.

End EwmaFacts.

(** The contract's pair stays within one unit above the exact average:
    with [M / D] the exact average scaled by 1e8 and
    [value + remainder / 10000] the contract's number,
    [M / D <= value + remainder / 10000 < M / D + 1]. *)
Lemma throughputAfter_bracket (x : Z) (k : nat) :
  0 <= x < 2 ^ 128 ->
  exists v r,
    throughputAfter x k = Ok (v, r)
    /\ 0 <= v <= x * 100000000
    /\ 0 <= r < 10000
    /\ ewmaNum x k * 100000000 * 10000 <= (10000 * v + r) * 10000 ^ Z.of_nat k
    /\ (10000 * v + r) * 10000 ^ Z.of_nat k
       < (ewmaNum x k * 100000000 + 10000 ^ Z.of_nat k) * 10000.
Proof.
  intros Hx. induction k as [|k IH].
  - exists 0, 0. cbn. repeat split; lia.
  - destruct IH as (v & r & Hrun & Hv & Hr & Hlo & Hhi).
    assert (0 < 10000 ^ Z.of_nat k) as Hpos by (apply Z.pow_pos_nonneg; lia).
    set (D := 10000 ^ Z.of_nat k) in *.
    set (M := ewmaNum x k * 100000000) in *.
    set (n := numeratorOf v r x).
    assert (n = 9999 * v + x * 100000000 + r) as Hn by reflexivity.
    assert (2 ^ 128 * 100000000 * 10000 + 10000 <= MAX_UINT) as Hmax
      by (vm_compute; discriminate).
    assert (n <= MAX_UINT) as Hfit by nia.
    exists (n / 10000), (n mod 10000).
    cbn [throughputAfter]. rewrite Hrun. cbn [bind fst snd].
    rewrite nextThroughput_fits by (fold n; lia). fold n.
    split; [reflexivity|].
    pose proof (Z.div_mod n 10000 ltac:(lia)) as Hdm.
    pose proof (Z.mod_pos_bound n 10000 ltac:(lia)) as Hmod.
    assert (0 <= n / 10000 <= x * 100000000) as Hv'.
    { split; [apply Z.div_pos; lia|].
      assert (n / 10000 < x * 100000000 + 1); [|lia].
      apply Z.div_lt_upper_bound; lia. }
    split; [exact Hv'|]. split; [exact Hmod|].
    replace (10000 * (n / 10000) + n mod 10000) with n by lia.
    rewrite Nat2Z.inj_succ, Z.pow_succ_r by lia. fold D.
    cbn [ewmaNum]. fold D.
    replace ((9999 * ewmaNum x k + x * D) * 100000000)
      with (9999 * M + x * 100000000 * D) by (subst M; ring).
    assert (0 <= r * D) by nia.
    assert (r * D <= 9999 * D) by nia.
    split; nia.
Qed.

(** The first three rounds, in closed form. *)
Lemma throughputAfter_first_rounds (x : Z) :
  0 <= x < 2 ^ 128 ->
  throughputAfter x 1 = Ok (x * 10000, 0)
  /\ throughputAfter x 2 = Ok (x * 19999, 0)
  /\ throughputAfter x 3 = Ok (x * 299970001 / 10000, (x * 299970001) mod 10000).
Proof.
  intros Hx.
  assert (2 ^ 128 * 100000000 * 10000 + 10000 <= MAX_UINT) as Hmax
    by (vm_compute; discriminate).
  assert (throughputAfter x 1 = Ok (x * 10000, 0)) as H1.
  { cbn [throughputAfter bind fst snd].
    rewrite nextThroughput_fits by (unfold numeratorOf, Scheduling.alpha, Scheduling.PRECISION; lia).
    unfold numeratorOf, Scheduling.alpha, Scheduling.PRECISION.
    replace ((10000 - 1) * 0 + x * 100000000 + 0) with (x * 10000 * 10000) by ring.
    rewrite Z.div_mul, Z.mod_mul by lia. reflexivity. }
  assert (throughputAfter x 2 = Ok (x * 19999, 0)) as H2.
  { change (throughputAfter x 2)
      with (st <- throughputAfter x 1 ;; Scheduling.nextThroughput (fst st) (snd st) x).
    rewrite H1. cbn [bind fst snd].
    rewrite nextThroughput_fits by (unfold numeratorOf, Scheduling.alpha, Scheduling.PRECISION; lia).
    unfold numeratorOf, Scheduling.alpha, Scheduling.PRECISION.
    replace ((10000 - 1) * (x * 10000) + x * 100000000 + 0) with (x * 19999 * 10000) by ring.
    rewrite Z.div_mul, Z.mod_mul by lia. reflexivity. }
  split; [exact H1|]. split; [exact H2|].
  change (throughputAfter x 3)
    with (st <- throughputAfter x 2 ;; Scheduling.nextThroughput (fst st) (snd st) x).
  rewrite H2. cbn [bind fst snd].
  rewrite nextThroughput_fits by (unfold numeratorOf, Scheduling.alpha, Scheduling.PRECISION; lia).
  unfold numeratorOf, Scheduling.alpha, Scheduling.PRECISION.
  replace ((10000 - 1) * (x * 19999) + x * 100000000 + 0) with (x * 299970001) by ring.
  reflexivity.
Qed.

Lemma floored_first_rounds (x : Z) :
  Ewma.floored x 0 = 0
  /\ Ewma.floored x 1 = x * 10000
  /\ Ewma.floored x 2 = x * 19999
  /\ Ewma.floored x 3 = x * 299970001 / 10000.
Proof.
  rewrite !floored_closed. cbn [ewmaNum].
  change (10000 ^ Z.of_nat 0) with 1. change (10000 ^ Z.of_nat 1) with 10000.
  change (10000 ^ Z.of_nat 2) with (10000 * 10000).
  change (10000 ^ Z.of_nat 3) with (100000000 * 10000).
  split; [reflexivity|]. split; [|split].
  - replace ((9999 * 0 + x * 1) * 100000000) with (x * 10000 * 10000) by ring.
    apply Z.div_mul. lia.
  - replace ((9999 * (9999 * 0 + x * 1) + x * 10000) * 100000000)
      with (x * 19999 * (10000 * 10000)) by ring.
    apply Z.div_mul. lia.
  - replace ((9999 * (9999 * (9999 * 0 + x * 1) + x * 10000) + x * (10000 * 10000))
             * 100000000)
      with (100000000 * (x * 299970001)) by ring.
    apply Z.div_mul_cancel_l; lia.
Qed.

(** C1, as the code has it. Starting from (0, 0) and applying the
    throughput update [k] times with the same total allocated rate [x],
    the update never overflows and the stored value is the exact rational
    average, scaled by 1e8 and floored, or that number plus one: it is
    never below it and never more than one unit of 1e-8 above it. For
    [k <= 3] (so for [k = 1]) the two are equal. *)
Theorem C1_throughput_within_one_unit (x : Z) (k : nat) :
  0 <= x < 2 ^ 128 ->
  exists v r,
    throughputAfter x k = Ok (v, r)
    /\ Ewma.floored x k <= v <= Ewma.floored x k + 1
    /\ ((k <= 3)%nat -> v = Ewma.floored x k).
Proof.
  intros Hx.
  destruct (throughputAfter_bracket x k Hx) as (v & r & Hrun & Hv & Hr & Hlo & Hhi).
  exists v, r. split; [exact Hrun|]. split.
  - rewrite floored_closed.
    assert (0 < 10000 ^ Z.of_nat k) as Hpos by (apply Z.pow_pos_nonneg; lia).
    set (D := 10000 ^ Z.of_nat k) in *.
    set (M := ewmaNum x k * 100000000) in *.
    pose proof (Z.div_mod M D ltac:(lia)) as Hdm.
    pose proof (Z.mod_pos_bound M D Hpos) as Hmod.
    set (q := M / D) in *. set (m := M mod D) in *.
    split.
    + destruct (Z.le_gt_cases q v) as [|Hlt]; [assumption|exfalso].
      assert ((10000 * v + r) * D <= (10000 * q - 1) * D) by nia.
      nia.
    + destruct (Z.le_gt_cases v (q + 1)) as [|Hgt]; [assumption|exfalso].
      assert ((10000 * (q + 2)) * D <= (10000 * v + r) * D) by nia.
      nia.
  - intros Hk.
    destruct (throughputAfter_first_rounds x Hx) as (H1 & H2 & H3).
    destruct (floored_first_rounds x) as (F0 & F1 & F2 & F3).
    destruct k as [|[|[|[|k]]]]; [| | | |lia].
    + rewrite F0. cbn in Hrun. congruence.
    + rewrite F1. congruence.
    + rewrite F2. congruence.
    + rewrite F3. congruence.
Qed.

Lemma C1_witness :
  exists v r,
    throughputAfter 1443 100 = Ok (v, r)
    /\ Ewma.floored 1443 100 <= v <= Ewma.floored 1443 100 + 1
    /\ ((100 <= 3)%nat -> v = Ewma.floored 1443 100).
Proof. apply (C1_throughput_within_one_unit 1443 100). vm_compute. split; [discriminate | reflexivity]. Defined.

(** C1 as stated fails: with a total allocated rate of 2500 in each of
    four rounds the contract stores 99985001 while the exact average,
    scaled and floored, is 99985000 (the exact number is
    99985000.999975); likewise for rate 298 and 100 rounds. Four calls
    of [updateScheduling] on the pair (11, 21), whose reported rate is
    2500, store that 99985001. *)
Lemma C1_counterexample :
  throughputAfter 2500 4 = Ok (99985001, 0)
  /\ Ewma.floored 2500 4 = 99985000
  /\ throughputAfter 298 100 = Ok (296529707, 22)
  /\ Ewma.floored 298 100 = 296529706
  /\ rd (Scheduling.throughput
           (Demo.round Demo.reportsPair Demo.regPair
              (Demo.round Demo.reportsPair Demo.regPair
                 (Demo.round Demo.reportsPair Demo.regPair Demo.afterPair)))) 11
     = 99985001.
Proof. vm_compute. repeat split; reflexivity. Qed.

(** ** SettlementContract *)

Section SettlementFacts.
Import Settlement.

Variable sched : Scheduling.State.
Variable reg : Registration.State.

Lemma settlePair_Ok (s : State) (u op : address) (log log' : list Event) :
  settlePair sched s u log op = Ok log' ->
  log' = log ++ pairEvents sched s u op.
Proof.
  unfold settlePair, getSchedulingMatrix, pairEvents. intros H.
  apply bind_Ok in H. destruct H as (b & Hb & H).
  apply bind_Ok in Hb. destruct Hb as (tt' & Hset & [= <-]).
  apply require_Ok, negb_true_iff in Hset.
  destruct (Scheduling.getSchedulingMatrix sched u op).
  - unfold getServiceParameters, settleService, calculateCost, notify in H.
    rewrite Hset in H. cbn [negb] in H.
    fold (durationOf sched u op) in H. fold (billingRate s op) in H.
    inv_ok. injection Ha as <-. injection H as <-. reflexivity.
  - injection H as <-. rewrite app_nil_r. reflexivity.
Qed.

Lemma settle_operators (s : State) (u : address) (ops : list address)
    (log log' : list Event) :
  foldlM (settlePair sched s u) log ops = Ok log' ->
  log' = log ++ flat_map (pairEvents sched s u) ops.
Proof.
  revert log. induction ops as [|op ops IH]; intros log H.
  - injection H as <-. cbn. rewrite app_nil_r. reflexivity.
  - cbn [foldlM] in H. apply bind_Ok in H. destruct H as (l1 & H1 & H).
    apply settlePair_Ok in H1. apply IH in H. subst. cbn [flat_map].
    rewrite <- app_assoc. reflexivity.
Qed.

Lemma settle_users (s : State) (us ops : list address) (log log' : list Event) :
  foldlM (fun log u => foldlM (settlePair sched s u) log ops) log us = Ok log' ->
  log' = log ++ flat_map (fun u => flat_map (pairEvents sched s u) ops) us.
Proof.
  revert log. induction us as [|u us IH]; intros log H.
  - injection H as <-. cbn. rewrite app_nil_r. reflexivity.
  - cbn [foldlM] in H. apply bind_Ok in H. destruct H as (l1 & H1 & H).
    apply settle_operators in H1. apply IH in H. subst. cbn [flat_map].
    rewrite <- app_assoc. reflexivity.
Qed.

(** Filtering a concatenation of blocks of which only the block of [a]
    can pass the filter. *)
Lemma filter_flat_map_only {A B} `{EqDecision A} (p : B -> bool) (f : A -> list B)
    (a : A) (l : list A) :
  NoDup l ->
  (forall x, x <> a -> List.filter p (f x) = []) ->
  List.filter p (flat_map f l)
  = if decide (a ∈ l) then List.filter p (f a) else [].
Proof.
  intros Hnd Hother. induction Hnd as [|x l Hx Hnd IH].
  - reflexivity.
  - cbn [flat_map]. rewrite List.filter_app, IH.
    destruct (decide (x = a)) as [->|Hne].
    + rewrite (decide_True (P := a ∈ a :: l)) by left.
      rewrite decide_False by assumption. apply app_nil_r.
    + rewrite (Hother x Hne). cbn [app].
      destruct (decide (a ∈ l)) as [Hin|Hnin].
      * rewrite decide_True by (right; assumption). reflexivity.
      * rewrite decide_False; [reflexivity|].
        intros Hin. apply elem_of_cons in Hin. destruct Hin; congruence.
Qed.

Lemma pairEvents_about (s : State) (u op u' op' : address) :
  List.filter (aboutPair u op) (pairEvents sched s u' op')
  = if decide (u' = u /\ op' = op) then pairEvents sched s u op else [].
Proof.
  unfold pairEvents.
  destruct (decide (u' = u /\ op' = op)) as [[-> ->]|Hne].
  - destruct (Scheduling.getSchedulingMatrix sched u op); [|reflexivity].
    cbn. rewrite !Z.eqb_refl. reflexivity.
  - destruct (Scheduling.getSchedulingMatrix sched u' op'); [|reflexivity].
    cbn. destruct (Z.eqb_spec u' u), (Z.eqb_spec op' op); try reflexivity. tauto.
Qed.

Lemma settlement_log_about (s : State) (us ops : list address) (u op : address) :
  NoDup us -> NoDup ops ->
  List.filter (aboutPair u op)
    (flat_map (fun u => flat_map (pairEvents sched s u) ops) us)
  = if decide (u ∈ us /\ op ∈ ops) then pairEvents sched s u op else [].
Proof.
  intros Hus Hops.
  assert (forall u', List.filter (aboutPair u op) (flat_map (pairEvents sched s u') ops)
                     = if decide (u' = u /\ op ∈ ops) then pairEvents sched s u op else [])
    as Hinner.
  { intros u'. rewrite (filter_flat_map_only _ _ op ops Hops).
    - rewrite pairEvents_about.
      destruct (decide (op ∈ ops)), (decide (u' = u)); subst;
        repeat first [rewrite decide_True by tauto | rewrite decide_False by tauto];
        reflexivity.
    - intros op' Hne. rewrite pairEvents_about, decide_False by tauto. reflexivity. }
  rewrite (filter_flat_map_only _ _ u us Hus).
  - rewrite Hinner.
    destruct (decide (u ∈ us)), (decide (op ∈ ops));
      repeat first [rewrite decide_True by tauto | rewrite decide_False by tauto];
      reflexivity.
  - intros u' Hne. rewrite Hinner, decide_False by tauto. reflexivity.
Qed.

(** The call succeeds when the scheduling contract is set and no cost
    overflows. *)
Lemma processScheduledTransactions_total (s : State) :
  schedulingContract s <> 0 ->
  (forall u op,
     0 <= billingRate s op * durationOf sched u op
     /\ billingRate s op * durationOf sched u op * 1000 <= MAX_UINT) ->
  exists log, processScheduledTransactions sched reg s = Ok (s, log).
Proof.
  intros Hset Hfit.
  assert (forall u log op, exists log', settlePair sched s u log op = Ok log') as Hpair.
  { intros u log op. unfold settlePair, getSchedulingMatrix.
    apply Z.eqb_neq in Hset. rewrite Hset. cbn [negb require bind].
    destruct (Scheduling.getSchedulingMatrix sched u op); [|eauto].
    unfold getServiceParameters, settleService, calculateCost.
    rewrite Hset. cbn [negb].
    fold (durationOf sched u op). fold (billingRate s op).
    destruct (Hfit u op) as [H0 H1].
    rewrite mul_fits by lia. cbn [bind]. rewrite mul_fits by lia. cbn [bind]. eauto. }
  unfold processScheduledTransactions.
  destruct (foldlM_total (fun _ => True)
              (fun log u => foldlM (settlePair sched s u) log
                              (Registration.getAllOperators reg))
              (Registration.getAllUsers reg)) with (a := @nil Event)
    as (log & Hlog & _); [|exact I|].
  - intros log u _ _.
    destruct (foldlM_total (fun _ => True) (settlePair sched s u)
                (Registration.getAllOperators reg)) with (a := log)
      as (log' & Hlog' & _); [|exact I|eauto].
    intros l op _ _. destruct (Hpair u l op) as [l' Hl']. eauto.
  - rewrite Hlog. cbn [bind]. eauto.
Qed.

(** C6. A call of [processScheduledTransactions] over duplicate-free
    user and operator lists writes no state, and its log holds, for every
    listed pair the scheduling matrix marks selected, exactly the two
    events [ServiceNotified(user, operator, duration, 1000)] and
    [PaymentProcessed(user, operator, rate * duration * 1000)], where
    [duration] is the recorded service duration, or 50 when that is 0, and
    [rate] the operator's configured rate, or 87 when that is 0; with
    both at their defaults the cost is 87 * 50 * 1000. A pair that is not
    marked has no event in the log. *)
Theorem C6_settlement_events (s s' : State) (log : list Event) (u op : address) :
  processScheduledTransactions sched reg s = Ok (s', log) ->
  NoDup (Registration.getAllUsers reg) ->
  NoDup (Registration.getAllOperators reg) ->
  let duration :=
    if Scheduling.getServiceDuration sched u op =? 0 then 50
    else Scheduling.getServiceDuration sched u op in
  let rate :=
    if rd (operatorRates s) op =? 0 then 87 else rd (operatorRates s) op in
  s' = s
  /\ (u ∈ Registration.getAllUsers reg -> op ∈ Registration.getAllOperators reg ->
      Scheduling.getSchedulingMatrix sched u op = true ->
      List.filter (aboutPair u op) log
      = [ServiceNotified u op duration 1000;
         PaymentProcessed u op (rate * duration * 1000)]
      /\ (rd (operatorRates s) op = 0 -> Scheduling.getServiceDuration sched u op = 0 ->
          List.filter (aboutPair u op) log
          = [ServiceNotified u op 50 1000; PaymentProcessed u op (87 * 50 * 1000)]))
  /\ (Scheduling.getSchedulingMatrix sched u op = false ->
      List.filter (aboutPair u op) log = []).
Proof.
  intros H Hus Hops duration rate. unfold processScheduledTransactions in H.
  apply bind_Ok in H. destruct H as (l & Hl & [= <- <-]).
  apply settle_users in Hl. cbn [app] in Hl. subst l.
  rewrite (settlement_log_about _ _ _ u op Hus Hops).
  split; [reflexivity|]. split.
  - intros Hu Hop Hm. rewrite decide_True by auto.
    unfold pairEvents. rewrite Hm. fold duration. split; [reflexivity|].
    intros Hr Hd. subst duration rate. unfold durationOf, billingRate.
    rewrite Hr, Hd. reflexivity.
  - intros Hm. unfold pairEvents. rewrite Hm. destruct (decide _); reflexivity.
Qed.

End SettlementFacts.

(** ** RegistrationContract *)

Lemma register_registryOk (r : Registration.State) (a : address) (proof : list byte)
    (isOp : bool) :
  registryOk r -> registryOk (commit r (Registration.register r a proof isOp)).
Proof.
  intros (Hu & Ho & Hid & Hop & Hus).
  destruct (Registration.register r a proof isOp) as [[r' ev]|e] eqn:H; cbn [commit];
    [|unfold registryOk; auto].
  unfold Registration.register in H.
  apply bind_Ok in H. destruct H as (t1 & _ & H).
  apply bind_Ok in H. destruct H as (t2 & Hfree & H).
  apply require_Ok in Hfree. apply Z.eqb_eq in Hfree.
  assert ((a ∉ Registration.allUsers r) /\ (a ∉ Registration.allOperators r)) as [Hnu Hno].
  { split; intros Hin; apply (Hid a); auto. }
  destruct isOp; apply bind_Ok in H; destruct H as (next & Hnext & [= <- <-]);
    apply add_Ok in Hnext; destruct Hnext as [-> _];
    unfold registryOk, Registration.getUserInfo; cbn.
  - split; [exact Hu|]. split.
    { apply NoDup_app. split; [exact Ho|]. split; [|apply NoDup_singleton].
      intros x Hx Hx'. apply list_elem_of_singleton in Hx'. congruence. }
    split; [|lia]. intros x Hx. rewrite lookup_insert.
    destruct (decide (a = x)) as [<-|Hne]; cbn; [lia|].
    apply Hid. rewrite elem_of_app, list_elem_of_singleton in Hx.
    destruct Hx as [Hx|[Hx|Hx]]; [auto | auto | congruence].
  - split.
    { apply NoDup_app. split; [exact Hu|]. split; [|apply NoDup_singleton].
      intros x Hx Hx'. apply list_elem_of_singleton in Hx'. congruence. }
    split; [exact Ho|]. split; [|lia]. intros x Hx. rewrite lookup_insert.
    destruct (decide (a = x)) as [<-|Hne]; cbn; [lia|].
    apply Hid. rewrite elem_of_app, list_elem_of_singleton in Hx.
    destruct Hx as [[Hx|Hx]|Hx]; [auto | congruence | auto].
Qed.

Lemma init_registryOk : registryOk Registration.init.
Proof.
  unfold registryOk. cbn. repeat split; try apply NoDup_nil_2; try lia.
  intros a [Ha|Ha]; inversion Ha.
Qed.

Lemma regAll_registryOk : registryOk Demo.regAll.
Proof. unfold Demo.regAll, Demo.join. repeat apply register_registryOk. apply init_registryOk. Qed.

(** ** The contracts on the small deployment *)

Lemma init_ratesBounded : ratesBounded StatusReporting.init.
Proof. intros u op. vm_compute. split; discriminate. Qed.

Lemma deployed_bounded : bounded Demo.deployed.
Proof.
  unfold bounded. cbn. unfold rd. repeat split; try discriminate;
    intros; rewrite lookup_empty; cbn; lia.
Qed.

(** The first round of the deployment returns, by the general argument. *)
Lemma first_round_returns :
  exists s' ev,
    Scheduling.updateScheduling Demo.reportsAll Demo.regAll 1 Demo.hash Demo.deployed
    = Ok (s', ev)
    /\ bounded s'.
Proof.
  apply updateScheduling_total.
  - apply applyAll_ratesBounded, init_ratesBounded.
  - apply deployed_bounded.
  - vm_compute. discriminate.
Qed.

(** Operator 21 sees a tie between users 11 and 12 and keeps the earlier
    one; operator 22 prefers user 13 (rate 2500) to user 12 (rate 1443). *)
Lemma first_round_selection :
  emitted (Scheduling.updateScheduling Demo.reportsAll Demo.regAll 1 Demo.hash
             Demo.deployed)
  = [Scheduled [21; 22] [11; 13]].
Proof. vm_compute. reflexivity. Qed.

Lemma deployed_oneSelection : oneSelection Demo.deployed.
Proof.
  intros u op. cbn. unfold rdb, rd. rewrite !lookup_empty. cbn.
  split; [discriminate|]. intros [<- H]. contradiction.
Qed.

(** Users 11 and 12 tie at operator 21 (rate 1443, no throughput yet):
    the earlier registered user 11 is selected, with rate 1443. *)
Lemma C2_witness :
  rd (Scheduling.selectedUser Demo.after) 21 = 11
  /\ priorityAt Demo.reportsAll (Scheduling.throughput Demo.deployed) 21 11
     = priorityAt Demo.reportsAll (Scheduling.throughput Demo.deployed) 21 12
  /\ Scheduling.getSchedulingMatrix Demo.after 11 21 = true
  /\ rd (Scheduling.allocatedRate Demo.after) (11, 21) = 1443.
Proof.
  assert (Scheduling.updateScheduling Demo.reportsAll Demo.regAll 1 Demo.hash Demo.deployed
          = Ok (Demo.after,
                emitted (Scheduling.updateScheduling Demo.reportsAll Demo.regAll 1
                           Demo.hash Demo.deployed))) as Hrun
    by (vm_compute; reflexivity).
  assert (21 ∈ Registration.getAllOperators Demo.regAll) as Hop by (vm_compute; left).
  destruct (C2_selection_is_first_maximum _ _ _ _ _ _ _ 21 Hrun Hop) as (_ & _ & H).
  assert (rd (Scheduling.selectedUser Demo.after) 21 = 11) as Hsel
    by (vm_compute; reflexivity).
  rewrite Hsel in H. destruct H as (_ & Hm & Ha); [discriminate|].
  split; [exact Hsel|]. split; [vm_compute; reflexivity|]. split; [exact Hm|].
  rewrite Ha. vm_compute. reflexivity.
Defined.

Lemma C9_witness :
  oneSelection Demo.after
  /\ forall u1 u2 op,
       Scheduling.getSchedulingMatrix Demo.after u1 op = true ->
       Scheduling.getSchedulingMatrix Demo.after u2 op = true ->
       u1 = u2 /\ rd (Scheduling.selectedUser Demo.after) op = u1.
Proof.
  exact (C9_one_selected_user_per_operator Demo.reportsAll 1 Demo.hash Demo.regAll
           Demo.deployed deployed_oneSelection).
Defined.

(** User 13 is selected by operator 22 with rate 2500; user 12 by
    nobody. *)
Lemma C5_witness :
  rd (Scheduling.throughput Demo.after) 13 = (2500 * 100000000) / 10000
  /\ rd (Scheduling.throughputRemainder Demo.after) 13 = (2500 * 100000000) mod 10000
  /\ rd (Scheduling.throughput Demo.after) 12 = 0.
Proof.
  assert (Scheduling.updateScheduling Demo.reportsAll Demo.regAll 1 Demo.hash Demo.deployed
          = Ok (Demo.after,
                emitted (Scheduling.updateScheduling Demo.reportsAll Demo.regAll 1
                           Demo.hash Demo.deployed))) as Hrun
    by (vm_compute; reflexivity).
  assert (NoDup (Registration.getAllUsers Demo.regAll)) as Hnd
    by (apply (bool_decide_unpack _); vm_compute; exact I).
  destruct (C5_throughput_updated_once _ _ _ _ _ _ _ 13 Hrun Hnd) as (H13 & _).
  destruct (C5_throughput_updated_once _ _ _ _ _ _ _ 12 Hrun Hnd) as (H12 & _).
  destruct H13 as [Hv Hr]; [vm_compute; right; right; left|].
  destruct H12 as [Hv' _]; [vm_compute; right; left|].
  rewrite Hv, Hr, Hv'. vm_compute. repeat split; reflexivity.
Defined.

(** With user 11 registered and no operator, a state in which user 11
    has no throughput is left as it is. *)
Lemma C4_witness :
  exists s',
    Scheduling.updateScheduling Demo.reportsPair Demo.regUser 1 Demo.hash Demo.deployed
    = Ok (s', [Scheduled [] []])
    /\ sameSelection Demo.deployed s'
    /\ forall u, rd (Scheduling.throughput s') u = rd (Scheduling.throughput Demo.deployed) u
                 /\ rd (Scheduling.throughputRemainder s') u
                    = rd (Scheduling.throughputRemainder Demo.deployed) u.
Proof.
  apply (proj1 (proj2 (C4_empty_lists Demo.reportsPair 1 Demo.hash Demo.regUser
                         Demo.deployed))).
  - vm_compute. reflexivity.
  - intros u _. vm_compute. repeat split; discriminate.
Defined.

(** C4 as stated fails: after one round that selects user 11 at
    operator 21 (rate 2500), a call that gets the user list [11] and an
    empty operator list succeeds and lowers the throughput of user 11
    from 25000000 to 24997500. *)
Lemma C4_counterexample :
  Registration.getAllOperators Demo.regUser = []
  /\ rd (Scheduling.throughput Demo.afterPair) 11 = 25000000
  /\ exists s' ev,
       Scheduling.updateScheduling Demo.reportsPair Demo.regUser 1 Demo.hash Demo.afterPair
       = Ok (s', ev)
       /\ rd (Scheduling.throughput s') 11 = 24997500
       /\ rd (Scheduling.throughput s') 11 <> rd (Scheduling.throughput Demo.afterPair) 11.
Proof.
  split; [reflexivity|]. split; [vm_compute; reflexivity|].
  eexists _, _. split; [vm_compute; reflexivity|].
  split; [vm_compute; reflexivity | vm_compute; discriminate].
Qed.

Lemma C6_witness :
  List.filter (aboutPair 13 22)
    (emitted (Settlement.processScheduledTransactions Demo.after Demo.regAll
                Demo.settlement))
  = [ServiceNotified 13 22 42 1000; PaymentProcessed 13 22 (87 * 42 * 1000)]
  /\ List.filter (aboutPair 12 22)
       (emitted (Settlement.processScheduledTransactions Demo.after Demo.regAll
                   Demo.settlement))
     = [].
Proof.
  assert (Settlement.processScheduledTransactions Demo.after Demo.regAll Demo.settlement
          = Ok (Demo.settlement,
                emitted (Settlement.processScheduledTransactions Demo.after Demo.regAll
                           Demo.settlement))) as Hrun
    by (vm_compute; reflexivity).
  assert (NoDup (Registration.getAllUsers Demo.regAll)) as Hus
    by (apply (bool_decide_unpack _); vm_compute; exact I).
  assert (NoDup (Registration.getAllOperators Demo.regAll)) as Hops
    by (apply (bool_decide_unpack _); vm_compute; exact I).
  destruct (C6_settlement_events _ _ _ _ _ 13 22 Hrun Hus Hops) as (_ & H13 & _).
  destruct (C6_settlement_events _ _ _ _ _ 12 22 Hrun Hus Hops) as (_ & _ & H12).
  split.
  - destruct H13 as [H _].
    + vm_compute. right. right. left.
    + vm_compute. right. left.
    + vm_compute. reflexivity.
    + rewrite H. vm_compute. reflexivity.
  - apply H12. vm_compute. reflexivity.
Defined.

Lemma C7_witness :
  StatusReporting.getLatestRate
    (StatusReporting.applyAll StatusReporting.init
       ([ {| StatusReporting.sub_user := 11; StatusReporting.sub_operator := 21;
             StatusReporting.sub_csi := Demo.csi1443; StatusReporting.sub_time := 1 |};
          {| StatusReporting.sub_user := 12; StatusReporting.sub_operator := 21;
             StatusReporting.sub_csi := Demo.csi1443; StatusReporting.sub_time := 2 |} ]
        ++ [ {| StatusReporting.sub_user := 11; StatusReporting.sub_operator := 21;
                StatusReporting.sub_csi := Demo.csi2500; StatusReporting.sub_time := 3 |} ]))
    11 21
  = 2500.
Proof.
  apply (C7_latestRate_is_last_submission
           [ {| StatusReporting.sub_user := 11; StatusReporting.sub_operator := 21;
                StatusReporting.sub_csi := Demo.csi1443; StatusReporting.sub_time := 1 |};
             {| StatusReporting.sub_user := 12; StatusReporting.sub_operator := 21;
                StatusReporting.sub_csi := Demo.csi1443; StatusReporting.sub_time := 2 |} ]
           11 21).
  vm_compute. reflexivity.
Defined.

(** * Further properties of the contracts *)

(** ** RegistrationContract: ids, lists and persistence *)

Lemma register_Ok_inv (r r' : Registration.State) (a : address) (proof : list byte)
    (isOp : bool) (ev : list Event) :
  Registration.register r a proof isOp = Ok (r', ev) ->
  Registration.validProof proof isOp = true
  /\ Registration.id (Registration.getUserInfo r a) = 0
  /\ r' = (if isOp then
             {| Registration.nextOpId := Registration.nextOpId r + 1;
                Registration.nextUserId := Registration.nextUserId r;
                Registration.registry :=
                  <[a := {| Registration.id := Registration.nextOpId r;
                            Registration.isOperator := true |}]> (Registration.registry r);
                Registration.allUsers := Registration.allUsers r;
                Registration.allOperators := Registration.allOperators r ++ [a] |}
           else
             {| Registration.nextOpId := Registration.nextOpId r;
                Registration.nextUserId := Registration.nextUserId r + 1;
                Registration.registry :=
                  <[a := {| Registration.id := Registration.nextUserId r;
                            Registration.isOperator := false |}]> (Registration.registry r);
                Registration.allUsers := Registration.allUsers r ++ [a];
                Registration.allOperators := Registration.allOperators r |})
  /\ ev = [RegistrationSuccess a
             (if isOp then Registration.nextOpId r else Registration.nextUserId r) isOp].
Proof.
  unfold Registration.register. intros H.
  apply bind_Ok in H. destruct H as (t1 & Hproof & H). apply require_Ok in Hproof.
  apply bind_Ok in H. destruct H as (t2 & Hfree & H).
  apply require_Ok in Hfree. apply Z.eqb_eq in Hfree.
  destruct isOp; apply bind_Ok in H; destruct H as (next & Hnext & [= <- <-]);
    apply add_Ok in Hnext; destruct Hnext as [-> _]; auto.
Qed.

Lemma registerOne_registryIds (r : Registration.State) (c : Registering) :
  registryIds r -> registryIds (registerOne r c).
Proof.
  intros (Hnu & Hno & Hus & Hops & Hknown). unfold registerOne.
  destruct (Registration.register r (reg_user c) (reg_proof c) (reg_isOperator c))
    as [[r' ev]|e] eqn:H; cbn [commit]; [|unfold registryIds; auto].
  apply register_Ok_inv in H. destruct H as (_ & Hfree & -> & _).
  set (a := reg_user c) in *.
  assert (forall (i : nat) b,
            Registration.getUserInfo r a
            <> {| Registration.id := Z.of_nat i + 1; Registration.isOperator := b |})
    as Hfresh.
  { intros i b Hinfo. rewrite Hinfo in Hfree. cbn in Hfree. lia. }
  assert (forall x, x <> a ->
            forall v, default {| Registration.id := 0; Registration.isOperator := false |}
                        (<[a := v]> (Registration.registry r) !! x)
                      = Registration.getUserInfo r x) as Hother.
  { intros x Hne v. rewrite lookup_insert_ne by auto. reflexivity. }
  assert (forall v, default {| Registration.id := 0; Registration.isOperator := false |}
                      (<[a := v]> (Registration.registry r) !! a) = v) as Hself.
  { intros v. rewrite lookup_insert_eq. reflexivity. }
  unfold registryIds.
  destruct (reg_isOperator c); unfold Registration.getUserInfo at 1 2 3;
    cbn [Registration.nextOpId Registration.nextUserId
         Registration.registry Registration.allUsers Registration.allOperators];
    rewrite ?length_app; cbn [length].
  - split; [lia|]. split; [lia|]. split; [|split].
    + intros i x Hx. destruct (decide (x = a)) as [->|Hne].
      * exfalso. eapply Hfresh. eauto.
      * rewrite Hother by assumption. auto.
    + intros i x Hx. apply lookup_snoc_Some in Hx.
      destruct Hx as [[_ Hx]|[-> <-]].
      * destruct (decide (x = a)) as [->|Hne].
        -- exfalso. eapply Hfresh. eauto.
        -- rewrite Hother by assumption. auto.
      * rewrite Hself, Hno. reflexivity.
    + intros x Hx. rewrite elem_of_app, list_elem_of_singleton.
      destruct (decide (x = a)) as [->|Hne]; [auto|].
      rewrite Hother in Hx by assumption. destruct (Hknown x Hx); auto.
  - split; [lia|]. split; [lia|]. split; [|split].
    + intros i x Hx. apply lookup_snoc_Some in Hx.
      destruct Hx as [[_ Hx]|[-> <-]].
      * destruct (decide (x = a)) as [->|Hne].
        -- exfalso. eapply Hfresh. eauto.
        -- rewrite Hother by assumption. auto.
      * rewrite Hself, Hnu. reflexivity.
    + intros i x Hx. destruct (decide (x = a)) as [->|Hne].
      * exfalso. eapply Hfresh. eauto.
      * rewrite Hother by assumption. auto.
    + intros x Hx. rewrite elem_of_app, list_elem_of_singleton.
      destruct (decide (x = a)) as [->|Hne]; [auto|].
      rewrite Hother in Hx by assumption. destruct (Hknown x Hx); auto.
Qed.

Lemma registerAll_registryIds (l : list Registering) (r : Registration.State) :
  registryIds r -> registryIds (registerAll r l).
Proof.
  revert r. induction l as [|c l IH]; intros r Hr; [exact Hr|].
  unfold registerAll in *. cbn [fold_left]. apply IH, registerOne_registryIds, Hr.
Qed.

Lemma init_registryIds : registryIds Registration.init.
Proof.
  unfold registryIds. cbn. repeat split; try reflexivity.
  - intros i a H. rewrite lookup_nil in H. discriminate.
  - intros i a H. rewrite lookup_nil in H. discriminate.
  - intros a H. unfold Registration.getUserInfo in H. cbn in H.
    rewrite lookup_empty in H. cbn in H. contradiction.
Qed.

(** X1. After any stream of calls of [register] on a fresh registry: the
    id of the [i]-th listed user is [i + 1] and it is recorded as a
    user, the id of the [i]-th listed operator is [i + 1] and it is
    recorded as an operator; [isRegistered] holds exactly of the listed
    addresses; no address is listed twice, and none is both a user and
    an operator. *)
Theorem X1_ids_are_list_positions (calls : list Registering) :
  let r := registerAll Registration.init calls in
  (forall (i : nat) a, Registration.getAllUsers r !! i = Some a ->
     Registration.getUserInfo r a
     = {| Registration.id := Z.of_nat i + 1; Registration.isOperator := false |})
  /\ (forall (i : nat) a, Registration.getAllOperators r !! i = Some a ->
        Registration.getUserInfo r a
        = {| Registration.id := Z.of_nat i + 1; Registration.isOperator := true |})
  /\ (forall a, Registration.isRegistered r a = true
                <-> a ∈ Registration.getAllUsers r \/ a ∈ Registration.getAllOperators r)
  /\ NoDup (Registration.getAllUsers r)
  /\ NoDup (Registration.getAllOperators r)
  /\ (forall a, a ∈ Registration.getAllUsers r -> a ∉ Registration.getAllOperators r).
Proof.
  intros r. unfold Registration.getAllUsers, Registration.getAllOperators.
  destruct (registerAll_registryIds calls _ init_registryIds)
    as (_ & _ & Hus & Hops & Hknown). fold r in Hus, Hops, Hknown.
  split; [exact Hus|]. split; [exact Hops|]. split; [|split; [|split]].
  - intros a. unfold Registration.isRegistered. rewrite negb_true_iff, Z.eqb_neq.
    split; [apply Hknown|].
    intros [Ha|Ha]; apply list_elem_of_lookup_1 in Ha; destruct Ha as [i Hi].
    + rewrite (Hus i a Hi). cbn. lia.
    + rewrite (Hops i a Hi). cbn. lia.
  - apply NoDup_alt. intros i j x Hi Hj.
    pose proof (Hus i x Hi) as H1. rewrite (Hus j x Hj) in H1.
    injection H1 as H1. lia.
  - apply NoDup_alt. intros i j x Hi Hj.
    pose proof (Hops i x Hi) as H1. rewrite (Hops j x Hj) in H1.
    injection H1 as H1. lia.
  - intros a Hu Ho.
    apply list_elem_of_lookup_1 in Hu, Ho. destruct Hu as [i Hi], Ho as [j Hj].
    pose proof (Hus i a Hi) as H1. rewrite (Hops j a Hj) in H1. discriminate.
Qed.

Lemma X1_witness :
  Registration.getUserInfo (registerAll Registration.init
     [ {| reg_user := 11; reg_proof := Demo.proof5; reg_isOperator := false |};
       {| reg_user := 21; reg_proof := Demo.proof10; reg_isOperator := true |};
       {| reg_user := 12; reg_proof := Demo.proof5; reg_isOperator := false |} ]) 12
  = {| Registration.id := 2; Registration.isOperator := false |}.
Proof.
  apply (proj1 (X1_ids_are_list_positions
     [ {| reg_user := 11; reg_proof := Demo.proof5; reg_isOperator := false |};
       {| reg_user := 21; reg_proof := Demo.proof10; reg_isOperator := true |};
       {| reg_user := 12; reg_proof := Demo.proof5; reg_isOperator := false |} ]) 1%nat 12).
  vm_compute. reflexivity.
Defined.

Lemma registerOne_keeps (r : Registration.State) (c : Registering) (a : address) :
  Registration.allUsers r `prefix_of` Registration.allUsers (registerOne r c)
  /\ Registration.allOperators r `prefix_of` Registration.allOperators (registerOne r c)
  /\ (Registration.isRegistered r a = true ->
      Registration.getUserInfo (registerOne r c) a = Registration.getUserInfo r a).
Proof.
  unfold registerOne.
  destruct (Registration.register r (reg_user c) (reg_proof c) (reg_isOperator c))
    as [[r' ev]|e] eqn:H; cbn [commit]; [|auto].
  apply register_Ok_inv in H. destruct H as (_ & Hfree & -> & _).
  unfold Registration.isRegistered. rewrite negb_true_iff, Z.eqb_neq.
  destruct (reg_isOperator c); cbn; (split; [|split]);
    try reflexivity; try (apply prefix_app_r; reflexivity).
  all: intros Ha; unfold Registration.getUserInfo; cbn;
    rewrite lookup_insert_ne by congruence; reflexivity.
Qed.

(** X2. Registration only adds: after any further stream of calls of
    [register], the user list and the operator list of before are
    prefixes of the new ones (the order of registration is kept), an
    address that was registered keeps its id and its role, and every
    later call of [register] for it, in either role and with any proof,
    reverts. *)
Theorem X2_registration_persists (r : Registration.State) (calls : list Registering)
    (a : address) :
  Registration.getAllUsers r `prefix_of` Registration.getAllUsers (registerAll r calls)
  /\ Registration.getAllOperators r
     `prefix_of` Registration.getAllOperators (registerAll r calls)
  /\ (Registration.isRegistered r a = true ->
      Registration.getUserInfo (registerAll r calls) a = Registration.getUserInfo r a
      /\ forall proof isOp,
           Registration.register (registerAll r calls) a proof isOp
           = Err (Revert (if Registration.validProof proof isOp
                          then "User already registered" else "Invalid credentials"))).
Proof.
  unfold Registration.getAllUsers, Registration.getAllOperators.
  assert (Registration.allUsers r `prefix_of` Registration.allUsers (registerAll r calls)
          /\ Registration.allOperators r
             `prefix_of` Registration.allOperators (registerAll r calls)
          /\ (Registration.isRegistered r a = true ->
              Registration.getUserInfo (registerAll r calls) a
              = Registration.getUserInfo r a)) as (Hu & Ho & Hinfo).
  { revert r. induction calls as [|c l IH]; intros r; [auto|].
    unfold registerAll in *. cbn [fold_left].
    destruct (registerOne_keeps r c a) as (Hu1 & Ho1 & Hi1).
    destruct (IH (registerOne r c)) as (Hu2 & Ho2 & Hi2).
    split; [etrans; eassumption|]. split; [etrans; eassumption|].
    intros Ha. specialize (Hi1 Ha). rewrite <- Hi1. apply Hi2.
    unfold Registration.isRegistered in *. rewrite Hi1. exact Ha. }
  split; [exact Hu|]. split; [exact Ho|]. intros Ha.
  specialize (Hinfo Ha). split; [exact Hinfo|]. intros proof isOp.
  unfold Registration.register. destruct (Registration.validProof proof isOp);
    cbn [require bind]; [|reflexivity].
  unfold Registration.isRegistered in Ha. rewrite Hinfo.
  apply negb_true_iff in Ha. rewrite Ha. reflexivity.
Qed.

Lemma X2_witness :
  Registration.getUserInfo
    (registerAll Demo.regUser
       [ {| reg_user := 11; reg_proof := Demo.proof10; reg_isOperator := true |};
         {| reg_user := 21; reg_proof := Demo.proof10; reg_isOperator := true |} ]) 11
  = Registration.getUserInfo Demo.regUser 11.
Proof.
  apply (proj2 (proj2 (X2_registration_persists Demo.regUser
     [ {| reg_user := 11; reg_proof := Demo.proof10; reg_isOperator := true |};
       {| reg_user := 21; reg_proof := Demo.proof10; reg_isOperator := true |} ] 11))).
  vm_compute. reflexivity.
Defined.

(** ** StatusReportingContract: the ledger and the estimator *)

Section StatusReportingMore.
Import StatusReporting.

(** X3. In every state the ledger reaches from the empty one by
    submissions, the latest rate of a pair is the last entry of the
    pair's history (0 when the history is empty), and the history is
    append-only: after any further submissions the old history is a
    prefix of the new one. *)
Theorem X3_latest_is_last_of_history (l l' : list Submission) (u o : address) :
  let s := applyAll init l in
  getLatestRate s u o = List.last (history s u o) 0
  /\ history s u o `prefix_of` history (applyAll s l') u o.
Proof.
  intros s. destruct (applyAll_tracks l init u o) as [H1 H2]. fold s in H1, H2.
  destruct (applyAll_tracks l' s u o) as [_ H3].
  split.
  - rewrite H1, H2. reflexivity.
  - rewrite H3. apply prefix_app_r. reflexivity.
Qed.

(** X4. For reports of at least 8 bytes the estimated rate [r] is the
    multiple count nearest to [1000 * snr / 693000], halves rounded up:
    [693000 * r <= 1000 * snr + 346500 < 693000 * (r + 1)], with [snr]
    the big-endian value of the first 8 bytes, or 1,000,000 when that is
    0. Bytes after the eighth do not matter, a larger nonzero [snr] never
    gives a smaller rate, and no rate exceeds 26618678317041200. *)
Theorem X4_rate_is_rounded_quotient (csi csi' : list byte) :
  (8 <= length csi)%nat -> (8 <= length csi')%nat ->
  exists r r',
    rateEstimation csi = Ok r /\ rateEstimation csi' = Ok r'
    /\ 693000 * r <= 1000 * clampSnr (snrOf csi) + 346500 < 693000 * (r + 1)
    /\ 0 <= r <= 26618678317041200
    /\ (take 8 csi = take 8 csi' -> r = r')
    /\ (snrOf csi <> 0 -> snrOf csi <= snrOf csi' -> r <= r').
Proof.
  intros Hlen Hlen'.
  rewrite (rateEstimation_value csi Hlen), (rateEstimation_value csi' Hlen').
  eexists _, _. split; [reflexivity|]. split; [reflexivity|].
  change (693000 / 2) with 346500.
  assert (forall c : list byte, (8 <= length c)%nat -> 0 <= snrOf c < 2 ^ 64) as Hrange.
  { intros c Hc. pose proof (bigEndian_range (take 8 c)) as Hr.
    rewrite length_take_le in Hr by lia. exact Hr. }
  pose proof (Hrange csi Hlen) as Hs. pose proof (Hrange csi' Hlen') as Hs'.
  assert (0 < clampSnr (snrOf csi) < 2 ^ 64) as Hc.
  { unfold clampSnr. destruct (Z.eqb_spec (snrOf csi) 0); lia. }
  set (n := 1000 * clampSnr (snrOf csi) + 346500).
  pose proof (Z.div_mod n 693000 ltac:(lia)) as Hdm.
  pose proof (Z.mod_pos_bound n 693000 ltac:(lia)) as Hmod.
  split; [lia|]. split.
  - split; [apply Z.div_pos; lia|].
    assert (n / 693000 < 26618678317041201); [|lia].
    apply Z.div_lt_upper_bound; [lia|]. subst n. vm_compute (2 ^ 64) in Hc. lia.
  - split.
    + intros Heq. subst n. unfold snrOf. rewrite Heq. reflexivity.
    + intros Hne Hle. subst n. apply Z.div_le_mono; [lia|].
      unfold clampSnr. destruct (Z.eqb_spec (snrOf csi) 0) as [|_]; [contradiction|].
      destruct (Z.eqb_spec (snrOf csi') 0); lia.
Qed.

Lemma X4_witness :
  exists r r',
    rateEstimation Demo.csi2500 = Ok r /\ rateEstimation Demo.csi1443 = Ok r'
    /\ 693000 * r <= 1000 * clampSnr (snrOf Demo.csi2500) + 346500 < 693000 * (r + 1)
    /\ 0 <= r <= 26618678317041200
    /\ (take 8 Demo.csi2500 = take 8 Demo.csi1443 -> r = r')
    /\ (snrOf Demo.csi2500 <> 0 -> snrOf Demo.csi2500 <= snrOf Demo.csi1443 -> r <= r').
Proof. apply (X4_rate_is_rounded_quotient Demo.csi2500 Demo.csi1443); simpl; lia. Defined.

Lemma ratesFor_absent (u o : address) (l : list Submission) :
  (u, o) ∉ map pairOf l -> ratesFor u o l = [].
Proof.
  induction l as [|x l IH]; intros Hnin; [reflexivity|].
  cbn [map] in Hnin. apply not_elem_of_cons in Hnin. destruct Hnin as [Hne Hnin].
  cbn [ratesFor]. rewrite IH by assumption.
  destruct (rateEstimation (sub_csi x)); [|reflexivity].
  rewrite decide_False; [reflexivity|].
  intros [<- <-]. apply Hne. reflexivity.
Qed.

Lemma ratesFor_Permutation (u o : address) (l l' : list Submission) :
  l ≡ₚ l' -> ratesFor u o l ≡ₚ ratesFor u o l'.
Proof.
  induction 1 as [|x l l' _ IH|x y l|l1 l2 l3 _ IH1 _ IH2].
  - reflexivity.
  - cbn [ratesFor]. destruct (rateEstimation (sub_csi x)); [|exact IH].
    destruct (decide _); [constructor|]; exact IH.
  - cbn [ratesFor].
    destruct (rateEstimation (sub_csi x)), (rateEstimation (sub_csi y));
      repeat destruct (decide _); try reflexivity. apply perm_swap.
  - etrans; eassumption.
Qed.

Lemma ratesFor_at_most_one (u o : address) (l : list Submission) :
  NoDup (map pairOf l) -> (length (ratesFor u o l) <= 1)%nat.
Proof.
  induction l as [|x l IH]; intros Hnd; [cbn; lia|].
  cbn [map] in Hnd. apply NoDup_cons in Hnd. destruct Hnd as [Hx Hnd].
  cbn [ratesFor]. destruct (rateEstimation (sub_csi x)); [|auto].
  destruct (decide (sub_user x = u /\ sub_operator x = o)) as [[<- <-]|]; [|auto].
  rewrite (ratesFor_absent _ _ _ Hx). cbn. lia.
Qed.

(** X5. Submissions for different pairs commute: two streams that hold
    the same submissions in different orders, with no pair submitted
    twice, leave every pair with the same latest rate and the same
    history, from any ledger state. *)
Theorem X5_reports_of_distinct_pairs_commute (s : State) (l l' : list Submission)
    (u o : address) :
  l ≡ₚ l' ->
  NoDup (map pairOf l) ->
  getLatestRate (applyAll s l) u o = getLatestRate (applyAll s l') u o
  /\ history (applyAll s l) u o = history (applyAll s l') u o.
Proof.
  intros Hperm Hnd.
  assert (ratesFor u o l = ratesFor u o l') as Heq.
  { pose proof (ratesFor_Permutation u o _ _ Hperm) as Hp.
    pose proof (ratesFor_at_most_one u o _ Hnd) as Hlen.
    destruct (ratesFor u o l) as [|r [|r' t]]; [| |cbn in Hlen; lia].
    - apply Permutation_nil_l in Hp. auto.
    - apply Permutation_singleton_l in Hp. auto. }
  destruct (applyAll_tracks l s u o) as [-> ->].
  destruct (applyAll_tracks l' s u o) as [-> ->].
  rewrite Heq. auto.
Qed.

End StatusReportingMore.

Lemma X5_witness :
  StatusReporting.getLatestRate
    (StatusReporting.applyAll StatusReporting.init
       [ {| StatusReporting.sub_user := 11; StatusReporting.sub_operator := 21;
            StatusReporting.sub_csi := Demo.csi1443; StatusReporting.sub_time := 1 |};
         {| StatusReporting.sub_user := 12; StatusReporting.sub_operator := 21;
            StatusReporting.sub_csi := Demo.csi2500; StatusReporting.sub_time := 1 |} ])
    12 21
  = StatusReporting.getLatestRate
      (StatusReporting.applyAll StatusReporting.init
         [ {| StatusReporting.sub_user := 12; StatusReporting.sub_operator := 21;
              StatusReporting.sub_csi := Demo.csi2500; StatusReporting.sub_time := 1 |};
           {| StatusReporting.sub_user := 11; StatusReporting.sub_operator := 21;
              StatusReporting.sub_csi := Demo.csi1443; StatusReporting.sub_time := 1 |} ])
      12 21.
Proof.
  apply (X5_reports_of_distinct_pairs_commute StatusReporting.init).
  - apply perm_swap.
  - apply (bool_decide_unpack _). vm_compute. exact I.
Defined.

(** ** The driver's reports and the estimator *)

Section DriverReports.
Import StatusReporting.

Lemma bitand_255 (n : Z) : Js.bitand n 255 = n mod 256.
Proof.
  unfold Js.bitand. change (Js.toInt32 255) with (Z.ones 8).
  rewrite Z.land_ones by lia. unfold Js.toInt32.
  change (2 ^ 8) with 256. change (2 ^ 32) with 4294967296.
  change (2 ^ 31) with 2147483648.
  assert ((n mod 4294967296) mod 256 = n mod 256) as H.
  { apply Z.mod_mod_divide. exists 16777216. reflexivity. }
  destruct (_ <=? _); [|exact H].
  replace (n mod 4294967296 - 4294967296)
    with (n mod 4294967296 + (-16777216) * 256) by lia.
  rewrite Z_mod_plus_full. exact H.
Qed.

Lemma ushr_8 (n : Z) : Js.ushr n 8 = n mod 2 ^ 32 / 256.
Proof.
  unfold Js.ushr, Js.toUint32. change (8 mod 2 ^ 32 mod 32) with 8.
  rewrite Z.shiftr_div_pow2 by lia. reflexivity.
Qed.

Lemma uint8_toUint8 (n : Z) : uint8 (Js.toUint8 n) = n mod 256.
Proof.
  unfold uint8, Js.toUint8.
  pose proof (Z.mod_pos_bound n 256 ltac:(lia)) as Hb.
  destruct (Byte.of_N (Z.to_N (n mod 256))) as [b|] eqn:H.
  - apply Byte.to_of_N in H. rewrite H. lia.
  - apply Byte.of_N_None_iff in H. lia.
Qed.

(** Shifting a 32-bit value right by 8 four times leaves 0. *)
Lemma ushr_chain (n : Z) :
  let m0 := n mod 2 ^ 32 in
  let m1 := m0 / 256 in
  let m2 := m1 mod 2 ^ 32 / 256 in
  let m3 := m2 mod 2 ^ 32 / 256 in
  let m4 := m3 mod 2 ^ 32 / 256 in
  n mod 256 + 256 * (m1 mod 256) + 65536 * (m2 mod 256) + 16777216 * (m3 mod 256) = m0
  /\ m4 = 0.
Proof.
  intros m0 m1 m2 m3 m4.
  change (2 ^ 32) with 4294967296 in *.
  pose proof (Z.mod_pos_bound n 4294967296 ltac:(lia)) as H0. fold m0 in H0.
  assert (n mod 256 = m0 mod 256) as Hb.
  { symmetry. apply Z.mod_mod_divide. exists 16777216. reflexivity. }
  assert (0 <= m1 < 16777216) as H1.
  { subst m1. split; [apply Z.div_pos; lia | apply Z.div_lt_upper_bound; lia]. }
  assert (m2 = m1 / 256) as E2 by (subst m2; rewrite Z.mod_small by lia; reflexivity).
  assert (0 <= m2 < 65536) as H2.
  { rewrite E2. split; [apply Z.div_pos; lia | apply Z.div_lt_upper_bound; lia]. }
  assert (m3 = m2 / 256) as E3 by (subst m3; rewrite Z.mod_small by lia; reflexivity).
  assert (0 <= m3 < 256) as H3.
  { rewrite E3. split; [apply Z.div_pos; lia | apply Z.div_lt_upper_bound; lia]. }
  assert (m4 = 0) as E4.
  { subst m4. rewrite Z.mod_small by lia. apply Z.div_small. lia. }
  split; [|exact E4].
  pose proof (Z.div_mod m0 256 ltac:(lia)) as D0. fold m1 in D0.
  pose proof (Z.div_mod m1 256 ltac:(lia)) as D1. rewrite <- E2 in D1.
  pose proof (Z.div_mod m2 256 ltac:(lia)) as D2. rewrite <- E3 in D2.
  rewrite (Z.mod_small m3 256) by lia. lia.
Qed.

Lemma csiBytes_list (n : Z) :
  let m1 := n mod 2 ^ 32 / 256 in
  let m2 := m1 mod 2 ^ 32 / 256 in
  let m3 := m2 mod 2 ^ 32 / 256 in
  Js.csiBytes n
  = [x00; x00; x00; x00; Js.toUint8 (m3 mod 256); Js.toUint8 (m2 mod 256);
     Js.toUint8 (m1 mod 256); Js.toUint8 (n mod 256)].
Proof.
  intros m1 m2 m3. destruct (ushr_chain n) as [_ E4]. cbn zeta in E4.
  fold m1 m2 m3 in E4.
  unfold Js.csiBytes. cbn [fold_left Js.storeByte fst replicate].
  rewrite !bitand_255, !ushr_8. cbn [insert list_insert].
  fold m1. fold m2. fold m3. rewrite E4.
  reflexivity.
Qed.

Lemma csiBytes_value (n : Z) :
  length (Js.csiBytes n) = 8%nat /\ snrOf (Js.csiBytes n) = n mod 2 ^ 32.
Proof.
  rewrite csiBytes_list. split; [reflexivity|].
  unfold snrOf. cbn [take bigEndian length]. rewrite !uint8_toUint8.
  rewrite !Z.mod_mod by lia.
  destruct (ushr_chain n) as [H _]. cbn zeta in H.
  set (m1 := n mod 2 ^ 32 / 256) in *.
  set (m2 := m1 mod 2 ^ 32 / 256) in *.
  set (m3 := m2 mod 2 ^ 32 / 256) in *.
  rewrite <- H.
  change (uint8 x00) with 0.
  change (256 ^ Z.of_nat 3) with 16777216.
  change (256 ^ Z.of_nat 2) with 65536.
  change (256 ^ Z.of_nat 1) with 256.
  change (256 ^ Z.of_nat 0) with 1.
  generalize (m1 mod 256) (m2 mod 256) (m3 mod 256) (n mod 256). intros. lia.
Qed.

(** X6. The eight bytes the driver builds from a rounded SNR
    [snrScaled >= 0] decode, in the contract, to [snrScaled] itself when
    [snrScaled < 2^32] and to [snrScaled mod 2^32] in general (the
    32-bit operators of the driver drop the higher bits, so the first
    four bytes are always 0); the report is always accepted by
    [submitReport], with the rate of the decoded value, and the value 0
    is reported as rate 1443. *)
Theorem X6_driver_report_round_trip (snrScaled : Z) (s : State) (u o : address) (ts : Z) :
  0 <= snrScaled ->
  length (Js.csiBytes snrScaled) = 8%nat
  /\ take 4 (Js.csiBytes snrScaled) = [x00; x00; x00; x00]
  /\ snrOf (Js.csiBytes snrScaled) = snrScaled mod 2 ^ 32
  /\ (snrScaled < 2 ^ 32 -> snrOf (Js.csiBytes snrScaled) = snrScaled)
  /\ exists rate,
       submitReport s u o (Js.csiBytes snrScaled) ts
       = Ok (commit s (submitReport s u o (Js.csiBytes snrScaled) ts),
             [ReportSubmitted u o ts rate])
       /\ rate = (1000 * clampSnr (snrScaled mod 2 ^ 32) + 346500) / 693000
       /\ getLatestRate (commit s (submitReport s u o (Js.csiBytes snrScaled) ts)) u o
          = rate.
Proof.
  intros Hn. destruct (csiBytes_value snrScaled) as [Hlen Hval].
  split; [exact Hlen|]. split.
  { rewrite csiBytes_list. reflexivity. }
  split; [exact Hval|]. split.
  { intros Hlt. rewrite Hval. apply Z.mod_small. lia. }
  assert (rateEstimation (Js.csiBytes snrScaled)
          = Ok ((1000 * clampSnr (snrScaled mod 2 ^ 32) + 346500) / 693000)) as Hr.
  { rewrite rateEstimation_value by lia. rewrite Hval. reflexivity. }
  eexists. rewrite (submitReport_Ok s u o _ ts _ Hr). cbn [commit].
  split; [reflexivity|]. split; [reflexivity|].
  unfold getLatestRate. cbn [latestOperatorUserRate].
  rewrite rd_insert, decide_True by reflexivity. reflexivity.
Qed.

Lemma X6_witness :
  snrOf (Js.csiBytes 1732500) = 1732500
  /\ Js.csiBytes 1732500 = Demo.csi2500.
Proof.
  split.
  - apply (X6_driver_report_round_trip 1732500 init 11 21 1); [lia | vm_compute; reflexivity].
  - vm_compute. reflexivity.
Defined.

End DriverReports.

(** ** SchedulingContract: reverts, durations, throughput and starvation *)

Section SchedulingMore.
Import Scheduling.

Variable status : StatusReporting.State.
Variable timestamp : uint.
Variable keccak256 : uint -> address -> uint.


Lemma selectFor_durationsOk (users : list address) (s s' : State) (op : address) :
  durationsOk s ->
  selectFor status timestamp keccak256 users s op = Ok s' ->
  durationsOk s'.
Proof.
  intros Hd H. apply selectFor_Ok in H. destruct H as (_ & Hothers & _ & Hat).
  unfold durationsOk, getSchedulingMatrix, getServiceDuration in *.
  intros u op'. destruct (decide (op' = op)) as [->|Hne].
  - destruct (Hat u) as (-> & _ & ->).
    destruct (decide (u = _ /\ _)).
    + intros _. pose proof (Z.mod_pos_bound (keccak256 timestamp op) 16 ltac:(lia)). lia.
    + destruct (decide (u = _ /\ _)); [discriminate | apply Hd].
  - destruct (Hothers op' Hne) as [_ Hrest]. destruct (Hrest u) as (-> & _ & ->).
    apply Hd.
Qed.

Lemma init_durationsOk : durationsOk init.
Proof.
  intros u op H. unfold getSchedulingMatrix, rdb in H. cbn in H.
  rewrite lookup_empty in H. discriminate.
Qed.

Lemma updateScheduling_durationsOk (reg : Registration.State) (s : State) :
  durationsOk s ->
  durationsOk (commit s (updateScheduling status reg timestamp keccak256 s)).
Proof.
  intros Hd.
  destruct (updateScheduling status reg timestamp keccak256 s) as [[s' ev]|e] eqn:H;
    cbn [commit]; [|exact Hd].
  apply updateScheduling_Ok in H. destruct H as (s1 & H1 & H2 & _).
  assert (durationsOk s1) as Hd1.
  { revert H1. apply foldlM_invariant; [|exact Hd].
    intros a op a' _ Ha. apply selectFor_durationsOk. exact Ha. }
  apply throughput_phase_selection in H2. destruct H2 as (_ & Hm & _ & Hdur & _).
  unfold durationsOk, getSchedulingMatrix, getServiceDuration in *.
  rewrite Hm, Hdur. exact Hd1.
Qed.

(** X9. Every pair the scheduling matrix marks has a recorded service
    duration from 35 to 50: this holds of the fresh contract and is kept
    by every call of [updateScheduling], whatever the hash gives. The
    default duration of the settlement is therefore never used for a
    marked pair. *)
Theorem X9_marked_durations_in_range (reg : Registration.State) (s : State) :
  durationsOk init
  /\ (durationsOk s ->
      durationsOk (commit s (updateScheduling status reg timestamp keccak256 s))).
Proof. split; [apply init_durationsOk | apply updateScheduling_durationsOk]. Qed.

(** X10. The throughput update moves a listed user's value towards the
    round's target without passing it: with [target = totalAllocated *
    1e8], a non-negative old value and an old remainder below 10000, the
    new value lies between the old value and the target (both included),
    the new remainder is below 10000 again, and nothing is lost:
    [10000 * value' + remainder' = 9999 * value + remainder + target].
    A user that gets no allocation never rises. *)
Theorem X10_throughput_moves_towards_target (reg : Registration.State) (s s' : State)
    (ev : list Event) (u : address) :
  updateScheduling status reg timestamp keccak256 s = Ok (s', ev) ->
  NoDup (Registration.getAllUsers reg) ->
  u ∈ Registration.getAllUsers reg ->
  0 <= rd (throughput s) u ->
  0 <= rd (throughputRemainder s) u < 10000 ->
  let target := sumAllocated (Registration.getAllOperators reg) s' u * 100000000 in
  Z.min (rd (throughput s) u) target <= rd (throughput s') u
    <= Z.max (rd (throughput s) u) target
  /\ 0 <= rd (throughputRemainder s') u < 10000
  /\ 10000 * rd (throughput s') u + rd (throughputRemainder s') u
     = 9999 * rd (throughput s) u + rd (throughputRemainder s) u + target
  /\ (target = 0 -> rd (throughput s') u <= rd (throughput s) u).
Proof.
  intros H Hnd Hu Hv Hr target.
  apply updateScheduling_Ok in H. destruct H as (s1 & H1 & H2 & _).
  apply selection_phase in H1. destruct H1 as ((Ht & Hrem & _) & _).
  apply (throughput_phase _ _ _ _ Hnd) in H2. destruct H2 as (Hsel & Hus).
  destruct (Hus u) as [Hin _]. specialize (Hin Hu).
  rewrite <- (sumAllocated_sameSelection _ _ _ u Hsel), Ht, Hrem in Hin.
  unfold numeratorOf, alpha, PRECISION in Hin. fold target in Hin.
  set (n := (10000 - 1) * rd (throughput s) u + target + rd (throughputRemainder s) u) in *.
  destruct Hin as [-> ->].
  pose proof (Z.div_mod n 10000 ltac:(lia)) as Hdm.
  pose proof (Z.mod_pos_bound n 10000 ltac:(lia)) as Hmod.
  assert (Z.min (rd (throughput s) u) target <= n / 10000
          <= Z.max (rd (throughput s) u) target) as Hbetween.
  { split.
    - apply Z.div_le_lower_bound; lia.
    - assert (n / 10000 < Z.max (rd (throughput s) u) target + 1); [|lia].
      apply Z.div_lt_upper_bound; lia. }
  split; [exact Hbetween|]. split; [exact Hmod|]. split; [lia|]. lia.
Qed.

Lemma priority_positive (latestRate t : Z) :
  0 < priorityOf latestRate t -> 0 < latestRate /\ t <= latestRate * 1000000000.
Proof.
  unfold priorityOf. destruct (Z.ltb_spec 0 t) as [Ht|Ht]; intros H; [|lia].
  assert (t <= latestRate * 1000000000); [|lia].
  destruct (Z.le_gt_cases t (latestRate * 1000000000)) as [|Hlt]; [assumption|exfalso].
  assert (latestRate * 1000000000 / t < 1); [|lia].
  apply Z.div_lt_upper_bound; lia.
Qed.

(** X11. A user an operator selects has a positive latest rate at
    that operator, and the same positive allocated rate, and its
    throughput at the start of the round is at most [rate * 1e9]. So a
    user without a report is never selected, and when every listed
    user's throughput exceeds [1e9] times its latest rate the operator
    selects nobody, although users with a positive rate are listed: the
    integer priority of each is 0. *)
Theorem X11_selected_user_has_positive_rate (reg : Registration.State) (s s' : State)
    (ev : list Event) (op : address) :
  updateScheduling status reg timestamp keccak256 s = Ok (s', ev) ->
  op ∈ Registration.getAllOperators reg ->
  let sel := rd (selectedUser s') op in
  (sel <> 0 ->
   0 < StatusReporting.getLatestRate status sel op
   /\ rd (allocatedRate s') (sel, op) = StatusReporting.getLatestRate status sel op
   /\ rd (throughput s) sel <= StatusReporting.getLatestRate status sel op * 1000000000)
  /\ ((forall u, u ∈ Registration.getAllUsers reg ->
         StatusReporting.getLatestRate status u op * 1000000000 < rd (throughput s) u) ->
      sel = 0).
Proof.
  intros H Hop sel.
  apply updateScheduling_Ok in H. destruct H as (s1 & H1 & H2 & _).
  apply selection_phase in H1. destruct H1 as (_ & _ & Hin).
  specialize (Hin op Hop). cbn zeta in Hin.
  apply throughput_phase_selection in H2. destruct H2 as (Hs & _ & Ha & _).
  subst sel. rewrite Hs, Ha. destruct Hin as [Hw Hmark]. rewrite Hw.
  clear Hw Hs Ha. unfold chosen in *.
  destruct (scan_spec status (throughput s) op (Registration.getAllUsers reg) 0 0 0)
    as [[Heq Hall]|(i & w & Heq & Hi & Hpos & Hle & Hlt)];
    rewrite Heq in *; cbn [fst snd] in *.
  - split; [intros Hne; contradiction | reflexivity].
  - apply priority_positive in Hpos. fold (rateAt status op w) in Hpos.
    unfold rateAt in Hpos. split.
    + intros Hne. destruct (Hmark Hne) as (_ & Hrate & _).
      split; [apply Hpos|]. split; [exact Hrate | apply Hpos].
    + intros Hall. apply list_elem_of_lookup_2 in Hi. specialize (Hall w Hi). lia.
Qed.

End SchedulingMore.




Lemma deployed_durationsOk : durationsOk Demo.deployed.
Proof. exact init_durationsOk. Qed.

Lemma X9_witness : durationsOk Demo.after.
Proof.
  apply (proj2 (X9_marked_durations_in_range Demo.reportsAll 1 Demo.hash Demo.regAll
                  Demo.deployed)).
  exact deployed_durationsOk.
Defined.

Lemma X10_witness :
  rd (Scheduling.throughput Starved.next) 11
  <= rd (Scheduling.throughput Starved.after50) 11.
Proof.
  assert (Scheduling.updateScheduling Starved.reportsLow Demo.regPair 51 Demo.hash
            Starved.after50
          = Ok (Starved.next,
                emitted (Scheduling.updateScheduling Starved.reportsLow Demo.regPair 51
                           Demo.hash Starved.after50))) as Hrun
    by (vm_compute; reflexivity).
  destruct (X10_throughput_moves_towards_target _ _ _ _ _ _ _ 11 Hrun) as (_ & _ & _ & Hz).
  - apply (bool_decide_unpack _). vm_compute. exact I.
  - vm_compute. left.
  - vm_compute. discriminate.
  - vm_compute. split; [discriminate | reflexivity].
  - apply Hz. vm_compute. reflexivity.
Defined.

(** After fifty rounds at rate 2500 the throughput of user 11 is above
    1e9; with a latest rate of 1 its priority is 0 and operator 21
    selects nobody. *)
Lemma X11_witness :
  StatusReporting.getLatestRate Starved.reportsLow 11 21 = 1
  /\ rd (Scheduling.selectedUser Starved.next) 21 = 0.
Proof.
  assert (Scheduling.updateScheduling Starved.reportsLow Demo.regPair 51 Demo.hash
            Starved.after50
          = Ok (Starved.next,
                emitted (Scheduling.updateScheduling Starved.reportsLow Demo.regPair 51
                           Demo.hash Starved.after50))) as Hrun
    by (vm_compute; reflexivity).
  assert (21 ∈ Registration.getAllOperators Demo.regPair) as Hop by (vm_compute; left).
  split; [vm_compute; reflexivity|].
  apply (proj2 (X11_selected_user_has_positive_rate _ _ _ _ _ _ _ 21 Hrun Hop)).
  intros u Hu. vm_compute in Hu. apply list_elem_of_singleton in Hu. subst u.
  vm_compute. reflexivity.
Defined.

(** X12. A user allocated the same total [x] in every round, from
    (0, 0): the stored throughput never decreases from one round to the
    next and never exceeds [x * 1e8]; once it equals [x * 1e8] it stays
    there. *)
Theorem X12_constant_allocation_is_monotone (x : Z) (k : nat) :
  0 <= x < 2 ^ 128 ->
  exists v r v' r',
    throughputAfter x k = Ok (v, r)
    /\ throughputAfter x (S k) = Ok (v', r')
    /\ v <= v' <= x * 100000000
    /\ (v = x * 100000000 -> v' = v /\ r' = r).
Proof.
  intros Hx.
  destruct (throughputAfter_bracket x k Hx) as (v & r & Hrun & Hv & Hr & _).
  exists v, r. cbn [throughputAfter]. rewrite Hrun. cbn [bind fst snd].
  assert (2 ^ 128 * 100000000 * 10000 + 10000 <= MAX_UINT) as Hmax
    by (vm_compute; discriminate).
  set (n := numeratorOf v r x).
  assert (n = 9999 * v + x * 100000000 + r) as Hn by reflexivity.
  rewrite nextThroughput_fits by (fold n; lia). fold n.
  exists (n / 10000), (n mod 10000). split; [reflexivity|]. split; [reflexivity|].
  pose proof (Z.div_mod n 10000 ltac:(lia)) as Hdm.
  pose proof (Z.mod_pos_bound n 10000 ltac:(lia)) as Hmod.
  split.
  - split.
    + apply Z.div_le_lower_bound; lia.
    + assert (n / 10000 < x * 100000000 + 1); [|lia].
      apply Z.div_lt_upper_bound; lia.
  - intros Hfix.
    assert (n = v * 10000 + r) as Hn' by lia.
    rewrite Hn'. rewrite Z.div_add_l, Z.div_small, Z.add_0_r by lia.
    rewrite Z.add_comm, Z_mod_plus_full, Z.mod_small by lia. auto.
Qed.

Lemma X12_witness :
  exists v r v' r',
    throughputAfter 2500 3 = Ok (v, r)
    /\ throughputAfter 2500 4 = Ok (v', r')
    /\ v <= v' <= 2500 * 100000000
    /\ (v = 2500 * 100000000 -> v' = v /\ r' = r).
Proof. apply (X12_constant_allocation_is_monotone 2500 3). vm_compute. split; [discriminate | reflexivity]. Defined.

(** ** SettlementContract: reverts, rates, and a whole round *)

Section SettlementMore.
Import Settlement.





(** X15. After [setOperatorRate(op, r)] with [r >= 0], a cost that
    [calculateCost] returns for [op] is [r * duration * bandwidth], or
    [87 * duration * bandwidth] when [r] is 0: a rate of 0 cannot be
    configured, so for a positive duration and bandwidth the cost is at
    least [duration * bandwidth]. The cost of every other operator is as
    before. *)
Theorem X15_operator_rate_is_used (s : State) (op op' : address) (r d b c : Z) :
  0 <= r -> 0 < d -> 0 < b ->
  (calculateCost (setOperatorRate op r s) op d b = Ok c ->
   c = (if r =? 0 then 87 else r) * d * b /\ d * b <= c)
  /\ (op' <> op ->
      calculateCost (setOperatorRate op r s) op' d b = calculateCost s op' d b).
Proof.
  intros Hr Hd Hb. unfold calculateCost, setOperatorRate. cbn [operatorRates].
  rewrite !rd_insert. split.
  - rewrite decide_True by reflexivity. intros H. inv_ok. split; [reflexivity|].
    destruct (Z.eqb_spec r 0); nia.
  - intros Hne. rewrite decide_False by auto. reflexivity.
Qed.

Lemma X15_witness :
  calculateCost (setOperatorRate 21 0 init) 21 50 1000 = Ok 4350000
  /\ calculateCost (setOperatorRate 21 0 init) 22 50 1000 = calculateCost init 22 50 1000.
Proof.
  destruct (X15_operator_rate_is_used init 21 22 0 50 1000 4350000) as [H1 H2];
    try lia.
  split; [vm_compute; reflexivity|]. apply H2. discriminate.
Defined.

End SettlementMore.


(** ** A whole round: scheduling, then settlement *)

Section WholeRound.

Variable status : StatusReporting.State.
Variable timestamp : uint.
Variable keccak256 : uint -> address -> uint.

Lemma chosen_listed (tp : gmap address uint) (op : address) (users : list address) :
  (chosen status tp op users).1.1 <> 0 -> (chosen status tp op users).1.1 ∈ users.
Proof.
  unfold chosen.
  destruct (scan_spec status tp op users 0 0 0) as [[-> _]|(i & w & -> & Hi & _)];
    cbn [fst]; [contradiction|].
  intros _. eapply list_elem_of_lookup_2. eassumption.
Qed.

Lemma filter_flat_map {A B} (p : B -> bool) (f : A -> list B) (l : list A) :
  List.filter p (flat_map f l) = flat_map (fun x => List.filter p (f x)) l.
Proof.
  induction l as [|x l IH]; [reflexivity|].
  cbn [flat_map]. rewrite List.filter_app, IH. reflexivity.
Qed.

Lemma flat_map_only {A B} `{EqDecision A} (f : A -> list B) (a : A) (l : list A) :
  NoDup l ->
  (forall x, x <> a -> f x = []) ->
  flat_map f l = if decide (a ∈ l) then f a else [].
Proof.
  intros Hnd Hother. induction Hnd as [|x l Hx Hnd IH]; [reflexivity|].
  cbn [flat_map]. rewrite IH. destruct (decide (x = a)) as [->|Hne].
  - rewrite (decide_True (P := a ∈ a :: l)) by left.
    rewrite decide_False by assumption. apply app_nil_r.
  - rewrite (Hother x Hne). cbn [app].
    destruct (decide (a ∈ l)) as [Hin|Hnin].
    + rewrite decide_True by (right; assumption). reflexivity.
    + rewrite decide_False; [reflexivity|].
      intros Hin. apply elem_of_cons in Hin. destruct Hin; congruence.
Qed.

Lemma pairEvents_aboutOperator (sched : Scheduling.State) (st : Settlement.State)
    (u op op' : address) :
  List.filter (aboutOperator op) (pairEvents sched st u op')
  = if decide (op' = op) then pairEvents sched st u op else [].
Proof.
  unfold pairEvents. destruct (decide (op' = op)) as [->|Hne].
  - destruct (Scheduling.getSchedulingMatrix sched u op); [|reflexivity].
    cbn. rewrite !Z.eqb_refl. reflexivity.
  - destruct (Scheduling.getSchedulingMatrix sched u op'); [|reflexivity].
    cbn. destruct (Z.eqb_spec op' op); [contradiction | reflexivity].
Qed.

(** X16. A round of the two calls, on duplicate-free lists and from a
    state with the selection invariant: after [updateScheduling], the
    log of [processScheduledTransactions] holds, for a listed operator
    with a selected user, exactly the two events
    [ServiceNotified(selected, op, d, 1000)] and
    [PaymentProcessed(selected, op, rate * d * 1000)], with
    [d = 35 + hash mod 16] the duration of this round (from 35 to 50) and
    [rate] the operator's configured rate or 87; for a listed operator
    without a selected user it holds no event. So each operator is paid
    at most once in a round, by the user the [Scheduled] event names. *)
Theorem X16_round_pays_each_selection_once (reg : Registration.State)
    (s s' : Scheduling.State) (ev : list Event) (st st' : Settlement.State)
    (log : list Event) (op : address) :
  oneSelection s ->
  NoDup (Registration.getAllUsers reg) ->
  NoDup (Registration.getAllOperators reg) ->
  Scheduling.updateScheduling status reg timestamp keccak256 s = Ok (s', ev) ->
  Settlement.processScheduledTransactions s' reg st = Ok (st', log) ->
  op ∈ Registration.getAllOperators reg ->
  let sel := rd (Scheduling.selectedUser s') op in
  let d := 35 + keccak256 timestamp op mod 16 in
  35 <= d <= 50
  /\ ev = [Scheduled (Registration.getAllOperators reg)
             (map (fun op => rd (Scheduling.selectedUser s') op)
                (Registration.getAllOperators reg))]
  /\ List.filter (aboutOperator op) log
     = (if decide (sel = 0) then []
        else [ServiceNotified sel op d 1000;
              PaymentProcessed sel op (billingRate st op * d * 1000)]).
Proof.
  intros Hinv Hus Hops Hrun Hsettle Hop sel d.
  pose proof (Z.mod_pos_bound (keccak256 timestamp op) 16 ltac:(lia)) as Hmod.
  split; [subst d; lia|].
  pose proof (updateScheduling_oneSelection _ _ _ _ _ _ _ Hinv Hrun) as Hinv'.
  apply updateScheduling_Ok in Hrun. destruct Hrun as (s1 & H1 & H2 & ->).
  split; [reflexivity|].
  apply selection_phase in H1. destruct H1 as (_ & _ & Hin).
  specialize (Hin op Hop). cbn zeta in Hin.
  apply throughput_phase_selection in H2. destruct H2 as (Hs & Hm & _ & Hdur & _).
  rewrite <- Hs, <- Hm, <- Hdur in Hin. fold sel in Hin.
  destruct Hin as [Hw Hmark].
  unfold Settlement.processScheduledTransactions in Hsettle.
  apply bind_Ok in Hsettle. destruct Hsettle as (l & Hl & [= <- <-]).
  apply settle_users in Hl. cbn [app] in Hl. subst l.
  rewrite filter_flat_map.
  assert (forall u, List.filter (aboutOperator op)
                      (flat_map (pairEvents s' st u) (Registration.getAllOperators reg))
                    = pairEvents s' st u op) as Hinner.
  { intros u. rewrite (filter_flat_map_only _ _ op _ Hops).
    - rewrite decide_True by assumption. rewrite pairEvents_aboutOperator.
      rewrite decide_True by reflexivity. reflexivity.
    - intros op' Hne. rewrite pairEvents_aboutOperator, decide_False by assumption.
      reflexivity. }
  rewrite (flat_map_ext _ (fun u => pairEvents s' st u op)) by (intros; apply Hinner).
  rewrite (flat_map_only _ sel _ Hus).
  - destruct (decide (sel = 0)) as [H0|H0].
    + destruct (decide (sel ∈ _)); [|reflexivity].
      unfold pairEvents, Scheduling.getSchedulingMatrix.
      destruct (rdb (Scheduling.schedulingMatrix s') (sel, op)) eqn:Hmk; [|reflexivity].
      apply Hinv' in Hmk. tauto.
    + rewrite decide_True.
      * destruct (Hmark ltac:(congruence)) as (Hmk & _ & Hd).
        rewrite <- Hw in Hmk, Hd. fold d in Hd.
        unfold pairEvents, Scheduling.getSchedulingMatrix, durationOf,
          Scheduling.getServiceDuration.
        rewrite Hmk, Hd. destruct (Z.eqb_spec d 0); [lia | reflexivity].
      * subst sel. rewrite Hw. apply chosen_listed. rewrite <- Hw. exact H0.
  - intros u Hne. unfold pairEvents, Scheduling.getSchedulingMatrix.
    destruct (rdb (Scheduling.schedulingMatrix s') (u, op)) eqn:Hmk; [|reflexivity].
    apply Hinv' in Hmk. destruct Hmk as [Hmk _]. subst sel. congruence.
Qed.

End WholeRound.

Lemma X16_witness :
  List.filter (aboutOperator 22)
    (emitted (Settlement.processScheduledTransactions Demo.after Demo.regAll
                Demo.settlement))
  = [ServiceNotified 13 22 42 1000; PaymentProcessed 13 22 3654000].
Proof.
  assert (Scheduling.updateScheduling Demo.reportsAll Demo.regAll 1 Demo.hash Demo.deployed
          = Ok (Demo.after,
                emitted (Scheduling.updateScheduling Demo.reportsAll Demo.regAll 1
                           Demo.hash Demo.deployed))) as Hrun
    by (vm_compute; reflexivity).
  assert (Settlement.processScheduledTransactions Demo.after Demo.regAll Demo.settlement
          = Ok (Demo.settlement,
                emitted (Settlement.processScheduledTransactions Demo.after Demo.regAll
                           Demo.settlement))) as Hsettle
    by (vm_compute; reflexivity).
  assert (NoDup (Registration.getAllUsers Demo.regAll)) as Hus
    by (apply (bool_decide_unpack _); vm_compute; exact I).
  assert (NoDup (Registration.getAllOperators Demo.regAll)) as Hops
    by (apply (bool_decide_unpack _); vm_compute; exact I).
  assert (22 ∈ Registration.getAllOperators Demo.regAll) as Hop
    by (vm_compute; right; left).
  destruct (X16_round_pays_each_selection_once _ _ _ _ _ _ _ _ _ _ 22
              deployed_oneSelection Hus Hops Hrun Hsettle Hop) as (_ & _ & H).
  rewrite H. vm_compute. reflexivity.
Defined.

(** ** SchedulingContract: what a call leaves alone, and the cold start *)

Section SchedulingFrame.
Import Scheduling.

Variable status : StatusReporting.State.
Variable timestamp : uint.
Variable keccak256 : uint -> address -> uint.

Lemma throughput_phase_frame (ops us : list address) (s1 s2 : State) (u : address) :
  u ∉ us ->
  foldlM (updateThroughput ops) s1 us = Ok s2 ->
  rd (throughput s2) u = rd (throughput s1) u
  /\ rd (throughputRemainder s2) u = rd (throughputRemainder s1) u.
Proof.
  intros Hu. apply (foldlM_invariant
    (fun a => rd (throughput a) u = rd (throughput s1) u
              /\ rd (throughputRemainder a) u = rd (throughputRemainder s1) u)).
  - intros a x a' Hx [Ha1 Ha2] H. apply updateThroughput_Ok in H.
    destruct H as (_ & -> & ->). rewrite !rd_insert.
    rewrite !decide_False by (intros ->; contradiction). auto.
  - auto.
Qed.

(** X17. A call of [updateScheduling] writes only the records of the
    listed operators and the throughput of the listed users: an operator
    outside the list keeps its selected user and, for every user, its
    mark, allocated rate and service duration (so a selection made
    before the operator left the list stays marked); a user outside the
    list keeps its throughput and remainder; the two contract addresses
    stay. *)
Theorem X17_unlisted_records_are_kept (reg : Registration.State) (s s' : State)
    (ev : list Event) :
  updateScheduling status reg timestamp keccak256 s = Ok (s', ev) ->
  (forall op, op ∉ Registration.getAllOperators reg ->
     rd (selectedUser s') op = rd (selectedUser s) op
     /\ forall u,
          getSchedulingMatrix s' u op = getSchedulingMatrix s u op
          /\ rd (allocatedRate s') (u, op) = rd (allocatedRate s) (u, op)
          /\ getServiceDuration s' u op = getServiceDuration s u op)
  /\ (forall u, u ∉ Registration.getAllUsers reg ->
        rd (throughput s') u = rd (throughput s) u
        /\ rd (throughputRemainder s') u = rd (throughputRemainder s) u)
  /\ statusReportingContract s' = statusReportingContract s
  /\ registrationContract s' = registrationContract s.
Proof.
  intros H. apply updateScheduling_Ok in H. destruct H as (s1 & H1 & H2 & _).
  apply selection_phase in H1. destruct H1 as ((Ht & Hr & Hc1 & Hc2) & Hout & _).
  pose proof (throughput_phase_selection _ _ _ _ H2) as (Hs & Hm & Ha & Hd & Hc1' & Hc2').
  split; [|split; [|split; congruence]].
  - intros op Hop. destruct (Hout op Hop) as [Hsel Hrest].
    unfold getSchedulingMatrix, getServiceDuration. rewrite Hs, Hm, Ha, Hd.
    split; [exact Hsel | exact Hrest].
  - intros u Hu. destruct (throughput_phase_frame _ _ _ _ u Hu H2) as [-> ->].
    rewrite Ht, Hr. auto.
Qed.

(** X18. The cold start: while a listed user without throughput has a
    latest rate of at least 1 at an operator, the operator selects
    somebody, and the user it selects has a throughput of at most 10
    times its own latest rate (in units of 1e-8): users with more
    history than that are passed over. *)
Theorem X18_cold_start_is_favoured (reg : Registration.State) (s s' : State)
    (ev : list Event) (op u0 : address) :
  updateScheduling status reg timestamp keccak256 s = Ok (s', ev) ->
  op ∈ Registration.getAllOperators reg ->
  u0 ∈ Registration.getAllUsers reg ->
  rd (throughput s) u0 = 0 ->
  1 <= StatusReporting.getLatestRate status u0 op ->
  let sel := rd (selectedUser s') op in
  sel ∈ Registration.getAllUsers reg
  /\ 1 <= StatusReporting.getLatestRate status sel op
  /\ rd (throughput s) sel <= 10 * StatusReporting.getLatestRate status sel op.
Proof.
  intros H Hop Hu0 Htp Hrate sel.
  apply updateScheduling_Ok in H. destruct H as (s1 & H1 & H2 & _).
  apply selection_phase in H1. destruct H1 as (_ & _ & Hin).
  specialize (Hin op Hop). cbn zeta in Hin. destruct Hin as [Hw _].
  apply throughput_phase_selection in H2. destruct H2 as (Hs & _).
  subst sel. rewrite Hs, Hw. clear Hw Hs. unfold chosen.
  assert (100000000 <= priorityAt status (throughput s) op u0) as Hp0.
  { unfold priorityAt, priorityOf, rateAt. rewrite Htp. cbn. lia. }
  destruct (scan_spec status (throughput s) op (Registration.getAllUsers reg) 0 0 0)
    as [[Heq Hall]|(i & w & Heq & Hi & Hpos & Hle & Hlt)].
  - specialize (Hall u0 Hu0). lia.
  - rewrite Heq. cbn [fst].
    split; [eapply list_elem_of_lookup_2; eassumption|].
    apply list_elem_of_lookup_1 in Hu0. destruct Hu0 as [j Hj].
    specialize (Hle j u0 Hj).
    assert (100000000 <= priorityAt status (throughput s) op w) as Hpw by lia.
    unfold priorityAt, priorityOf, rateAt in Hpw.
    destruct (Z.ltb_spec 0 (rd (throughput s) w)) as [Ht|Ht]; [|lia].
    set (r := StatusReporting.getLatestRate status w op) in *.
    set (t := rd (throughput s) w) in *.
    assert (t <= 10 * r); [|lia].
    destruct (Z.le_gt_cases t (10 * r)) as [|Hgt]; [assumption|exfalso].
    assert (r * 1000000000 / t < 100000000); [|lia].
    apply Z.div_lt_upper_bound; lia.
Qed.

End SchedulingFrame.

Lemma X17_witness :
  rd (Scheduling.selectedUser
        (commit Demo.after
           (Scheduling.updateScheduling Demo.reportsPair Demo.regPair 2 Demo.hash Demo.after))) 22
  = rd (Scheduling.selectedUser Demo.after) 22.
Proof.
  assert (Scheduling.updateScheduling Demo.reportsPair Demo.regPair 2 Demo.hash Demo.after
          = Ok (commit Demo.after
                  (Scheduling.updateScheduling Demo.reportsPair Demo.regPair 2 Demo.hash Demo.after),
                emitted (Scheduling.updateScheduling Demo.reportsPair Demo.regPair 2 Demo.hash
                           Demo.after))) as Hrun
    by (vm_compute; reflexivity).
  destruct (X17_unlisted_records_are_kept _ _ _ _ _ _ _ Hrun) as (H & _).
  destruct (H 22) as [Hsel _]; [|exact Hsel].
  vm_compute. intros Hin. apply list_elem_of_singleton in Hin. discriminate.
Defined.

Lemma X18_witness :
  rd (Scheduling.selectedUser Demo.after) 21 ∈ Registration.getAllUsers Demo.regAll
  /\ 1 <= StatusReporting.getLatestRate Demo.reportsAll
            (rd (Scheduling.selectedUser Demo.after) 21) 21
  /\ rd (Scheduling.throughput Demo.deployed) (rd (Scheduling.selectedUser Demo.after) 21)
     <= 10 * StatusReporting.getLatestRate Demo.reportsAll
               (rd (Scheduling.selectedUser Demo.after) 21) 21.
Proof.
  assert (Scheduling.updateScheduling Demo.reportsAll Demo.regAll 1 Demo.hash Demo.deployed
          = Ok (Demo.after,
                emitted (Scheduling.updateScheduling Demo.reportsAll Demo.regAll 1 Demo.hash
                           Demo.deployed))) as Hrun
    by (vm_compute; reflexivity).
  assert (21 ∈ Registration.getAllOperators Demo.regAll) as Hop by (vm_compute; left).
  assert (12 ∈ Registration.getAllUsers Demo.regAll) as Hu by (vm_compute; right; left).
  assert (rd (Scheduling.throughput Demo.deployed) 12 = 0) as Htp
    by (vm_compute; reflexivity).
  assert (1 <= StatusReporting.getLatestRate Demo.reportsAll 12 21) as Hrate
    by (vm_compute; discriminate).
  exact (X18_cold_start_is_favoured _ _ _ _ _ _ _ 21 12 Hrun Hop Hu Htp Hrate).
Defined.
